(** * dndbot: the guild bank cog (src/cogs/bank.py) and the management
      cog (src/cogs/management.py)

    A shallow embedding of the ledger part of the [Bank] cog: the
    transaction table, [process_transaction], [get_balance], [print_log],
    the confirm, delete and pending commands and the account commands;
    then of the error log and the extension commands of the [Management]
    cog.  The definitions come first, the properties after them.

    Conventions.
    - Python [int] is [Z]; a nullable integer column is [value].
    - Python [str] is [string]; the strings that matter here are ASCII
      (any other character is rejected by the first loop of
      [process_transaction]).
    - A command either sends one message and ends, or raises: [Outcome].
      Commands run in [Cmd], a state monad over the transaction table with
      an early exit.
    - [datetime.now(tz=timezone.utc).isoformat()] is read from the
      arguments [date1], [date2]: one reading per record created. *)

From Stdlib Require Import ZArith List String Ascii Bool Lia.
From Stdlib Require Import Permutation Sorted DecimalString.
Import ListNotations.

Open Scope string_scope.
Open Scope Z_scope.

(** ** Python values and strings *)

Module Py.

(** What a nullable integer attribute holds: [None] or an [int]. *)
Inductive value : Type :=
| VNone
| VInt (z : Z).

(** Exceptions that the modelled code can raise. *)
Inductive Exn : Type :=
| ValueError
| TypeError
| NameError
| NoResultFound
| MultipleResultsFound.

(** Truth value of an object: [None] and [0] are false. *)
Definition truthy (v : value) : bool :=
  match v with
  | VNone => false
  | VInt z => negb (z =? 0)
  end.

(** [a or b]. *)
Definition or (a b : value) : value :=
  if truthy a then a else b.

(** [a + b] on these values: adding [None] is a [TypeError]. *)
Definition add (a b : value) : Exn + value :=
  match a, b with
  | VInt x, VInt y => inr (VInt (x + y))
  | _, _ => inl TypeError
  end.

(** [a * b] with [b] an [int] literal. *)
Definition mul (a : value) (b : Z) : Exn + value :=
  match a with
  | VInt x => inr (VInt (x * b))
  | VNone => inl TypeError
  end.

(** [not s] for a string argument that may be [None]. *)
Definition falsy (s : option string) : bool :=
  match s with
  | None => true
  | Some "" => true
  | Some _ => false
  end.

(** [c in s] for a one-character [c]. *)
Fixpoint contains (c : ascii) (s : string) : bool :=
  match s with
  | "" => false
  | String d r => Ascii.eqb c d || contains c r
  end.

(** [x in t] for a tuple of strings [t]. *)
Definition in_tuple (x : string) (t : list string) : bool :=
  existsb (String.eqb x) t.

(** [t.index(x)]; [None] stands for the [ValueError] of a missing item. *)
Fixpoint index (x : string) (t : list string) : option nat :=
  match t with
  | [] => None
  | y :: r => if String.eqb x y then Some 0%nat
              else option_map S (index x r)
  end.

(** [s.split(sep)] for a one-character separator: always at least one
    piece, empty pieces kept. *)
Fixpoint split (sep : ascii) (s : string) : list string :=
  match s with
  | "" => [""]
  | String c r =>
      if Ascii.eqb c sep then "" :: split sep r
      else match split sep r with
           | [] => [String c ""]
           | p :: ps => String c p :: ps
           end
  end.

(** [s[:-1]]. *)
Fixpoint drop_last (s : string) : string :=
  match s with
  | "" => ""
  | String c "" => ""
  | String c r => String c (drop_last r)
  end.

(** [s[-1:]]. *)
Fixpoint last (s : string) : string :=
  match s with
  | "" => ""
  | String c "" => String c ""
  | String c r => last r
  end.

(** [s[0]] as used to build [CURRENCIES_SHORT] (never on an empty
    string there). *)
Definition first (s : string) : string :=
  match s with
  | "" => ""
  | String c _ => String c ""
  end.

Definition is_digit (c : ascii) : bool := contains c "0123456789".

Definition digit_value (c : ascii) : Z :=
  Z.of_nat (nat_of_ascii c) - 48.

(** Value of a non-empty run of decimal digits, most significant first. *)
Fixpoint digits (acc : Z) (s : string) : option Z :=
  match s with
  | "" => Some acc
  | String c r =>
      if is_digit c then digits (10 * acc + digit_value c) r else None
  end.

Definition number (s : string) : option Z :=
  match s with
  | "" => None
  | _ => digits 0 s
  end.

(** [int(s)]; [None] stands for [ValueError].  The argument is a piece of
    a string that passed the character loop of [process_transaction], so
    it holds no white space and no underscore: on such strings [int]
    accepts exactly an optional sign followed by one or more digits.
    The interpreter also refuses a string of more than 4300 digits
    ([sys.int_info.default_max_str_digits]); that cap is left out, so the
    definition stands for [int] on strings of at most 4300 digits. *)
Definition int (s : string) : option Z :=
  match s with
  | "" => None
  | String c r =>
      if Ascii.eqb c "+" then number r
      else if Ascii.eqb c "-" then option_map Z.opp (number r)
      else number s
  end.

End Py.

Import Py.

(** ** The currencies *)

Inductive Currency : Type :=
| Platinum
| Gold
| Electrum
| Silver
| Copper.

Definition name (c : Currency) : string :=
  match c with
  | Platinum => "platinum"
  | Gold => "gold"
  | Electrum => "electrum"
  | Silver => "silver"
  | Copper => "copper"
  end.

Definition CURRENCIES : list Currency :=
  [Platinum; Gold; Electrum; Silver; Copper].

Definition CURRENCIES_SHORT : list string :=
  map (fun c => Py.first (name c)) CURRENCIES.

Definition Currency_eqb (a b : Currency) : bool :=
  match a, b with
  | Platinum, Platinum | Gold, Gold | Electrum, Electrum
  | Silver, Silver | Copper, Copper => true
  | _, _ => false
  end.

(** ** The transaction table *)

(** A row of [TransactionData].  The columns are those that
    [create_new] is given, plus the key. *)
Record TransactionData : Type := mkTransaction {
  _id : Z;
  date : string;
  user_id : Z;
  receiver_id : Z;
  sender_id : Z;
  description : string;
  confirmed : bool;
  platinum : value;
  gold : value;
  electrum : value;
  silver : value;
  copper : value
}.

(** [getattr(transaction, c)] for a currency name [c]. *)
Definition getattr (t : TransactionData) (c : Currency) : value :=
  match c with
  | Platinum => platinum t
  | Gold => gold t
  | Electrum => electrum t
  | Silver => silver t
  | Copper => copper t
  end.

(** [setattr(transaction, c, v)] for a currency name [c]. *)
Definition setattr (t : TransactionData) (c : Currency) (v : value)
  : TransactionData :=
  match c with
  | Platinum =>
      mkTransaction (_id t) (date t) (user_id t) (receiver_id t) (sender_id t)
        (description t) (confirmed t) v (gold t) (electrum t) (silver t)
        (copper t)
  | Gold =>
      mkTransaction (_id t) (date t) (user_id t) (receiver_id t) (sender_id t)
        (description t) (confirmed t) (platinum t) v (electrum t) (silver t)
        (copper t)
  | Electrum =>
      mkTransaction (_id t) (date t) (user_id t) (receiver_id t) (sender_id t)
        (description t) (confirmed t) (platinum t) (gold t) v (silver t)
        (copper t)
  | Silver =>
      mkTransaction (_id t) (date t) (user_id t) (receiver_id t) (sender_id t)
        (description t) (confirmed t) (platinum t) (gold t) (electrum t) v
        (copper t)
  | Copper =>
      mkTransaction (_id t) (date t) (user_id t) (receiver_id t) (sender_id t)
        (description t) (confirmed t) (platinum t) (gold t) (electrum t)
        (silver t) v
  end.

(** [transaction.confirmed = True]. *)
Definition set_confirmed (t : TransactionData) : TransactionData :=
  mkTransaction (_id t) (date t) (user_id t) (receiver_id t) (sender_id t)
    (description t) true (platinum t) (gold t) (electrum t) (silver t)
    (copper t).

(** The table: its rows in insertion order and the next key. *)
Record Store : Type := mkStore {
  rows : list TransactionData;
  next_id : Z
}.

Definition empty_store : Store := mkStore [] 1.

(** The row a mapped object stands for. *)
Definition row (st : Store) (tid : Z) : option TransactionData :=
  find (fun t => _id t =? tid) (rows st).

(** Write one attribute of the row with key [tid]. *)
Definition update (st : Store) (tid : Z) (f : TransactionData -> TransactionData)
  : Store :=
  mkStore (map (fun t => if _id t =? tid then f t else t) (rows st))
          (next_id st).

Module TransactionDB.

(** Modelled from the spec: [TransactionDB.create_new] lives in
    [models/transaction_model.py], which is not among the sources.  The
    specification's [LedgerStore.create] "assigns a new unique id,
    persists, returns the stored record", ids being "unique,
    monotonically assigned, never reused".  The object returned is the
    stored record: it is named here by its key, and attribute writes on
    it are writes to the row. *)
Definition create_new (st : Store)
    (date : string) (user_id receiver_id sender_id : Z)
    (description : string) (confirmed : bool)
    (platinum electrum gold silver copper : value) : Store * Z :=
  let t := mkTransaction (next_id st) date user_id receiver_id sender_id
             description confirmed platinum gold electrum silver copper in
  (mkStore (rows st ++ [t]) (next_id st + 1), next_id st).

(** Modelled from the spec: [TransactionDB.query_all] lives in the same
    missing file.  The specification's [LedgerStore.query] "returns all
    matching records", in insertion order for the in-process store. *)
Definition query_all (st : Store) (receiver : Z) (is_confirmed : bool)
    : list TransactionData :=
  filter (fun t => (receiver_id t =? receiver)
                   && Bool.eqb (confirmed t) is_confirmed)
         (rows st).

End TransactionDB.

(** ** Commands *)

(** What a command hands to [ctx.send].  The embed that reports a new
    transaction names the transaction object by its key; how
    [format_transaction] renders it is presentation. *)
Inductive Message : Type :=
| Text (s : string)
| Added (title : string) (transaction : Z).

(** How a command ends: the message it sent, or the exception it raised. *)
Inductive Outcome : Type :=
| Sent (m : Message)
| Raised (e : Exn).

(** A step of a command: it reads and writes the table, and either yields
    a value or ends the command. *)
Definition Cmd (A : Type) : Type := Store -> Store * (A + Outcome).

Definition ret {A} (a : A) : Cmd A := fun st => (st, inl a).

Definition bind {A B} (c : Cmd A) (k : A -> Cmd B) : Cmd B :=
  fun st =>
    match c st with
    | (st', inl a) => k a st'
    | (st', inr o) => (st', inr o)
    end.

Notation "x <- c ;; k" := (bind c (fun x => k))
  (at level 61, c at next level, right associativity).
Notation "c ;; k" := (bind c (fun _ => k))
  (at level 61, right associativity).

(** [await ctx.send(m); return]. *)
Definition send_return {A} (m : Message) : Cmd A :=
  fun st => (st, inr (Sent m)).

Definition raise {A} (e : Exn) : Cmd A :=
  fun st => (st, inr (Raised e)).

(** A partial operation whose failure is the exception [e]. *)
Definition lift_opt {A} (e : Exn) (o : option A) : Cmd A :=
  match o with
  | Some a => ret a
  | None => raise e
  end.

Definition lift_exn {A} (r : Exn + A) : Cmd A :=
  match r with
  | inr a => ret a
  | inl e => raise e
  end.

(** [if b: c]. *)
Definition when (b : bool) (c : Cmd unit) : Cmd unit :=
  if b then c else ret tt.

(** [for x in l: body]. *)
Fixpoint for_each {A} (l : list A) (body : A -> Cmd unit) : Cmd unit :=
  match l with
  | [] => ret tt
  | x :: r => body x ;; for_each r body
  end.

(** The table operations as steps. *)
Definition create_new (date : string) (user_id receiver_id sender_id : Z)
    (description : string) (confirmed : bool)
    (platinum electrum gold silver copper : value) : Cmd Z :=
  fun st =>
    let (st', tid) :=
      TransactionDB.create_new st date user_id receiver_id sender_id
        description confirmed platinum electrum gold silver copper in
    (st', inl tid).

(** [getattr(obj, c)] on the stored record behind the object [tid]. *)
Definition get (tid : Z) (c : Currency) : Cmd value :=
  fun st =>
    (st, inl match row st tid with
             | Some t => getattr t c
             | None => VNone
             end).

(** [setattr(obj, c, v)] on the stored record behind the object [tid]. *)
Definition set (tid : Z) (c : Currency) (v : value) : Cmd unit :=
  fun st => (update st tid (fun t => setattr t c v), inl tt).

(** Run a command whose last step is [await ctx.send(m)]. *)
Definition run (c : Cmd Message) : Store -> Store * Outcome :=
  fun st =>
    match c st with
    | (st', inl m) => (st', Sent m)
    | (st', inr o) => (st', o)
    end.

(** The part of [ctx] that the ledger reads: [ctx.author.id]. *)
Record Context : Type := mkContext { author_id : Z }.

(** The argument of a parameter that was checked to be a non-empty
    string. *)
Definition str (o : option string) : string :=
  match o with
  | Some s => s
  | None => ""
  end.

Definition chars (s : string) : list ascii := list_ascii_of_string s.

(** [Bank.process_transaction] (bank.py, lines 74-133). *)
Definition process_transaction (ctx : Context) (date1 date2 : string)
    (transaction_string description : option string)
    (sender_id receiver_id : Z) (confirm : bool) : Store -> Store * Outcome :=
  run (
    when (falsy description || falsy transaction_string)
      (send_return
         (Text "Please provide a transaction string and a description")) ;;
    let transaction_string := str transaction_string in
    let description := str description in
    for_each (chars transaction_string) (fun c =>
      when (negb (contains c ",+-1234567890")
            && negb (in_tuple (String c "") CURRENCIES_SHORT))
        (send_return
           (Text ("Invalid character in transaction " ++ String c "")))) ;;
    transaction <-
      create_new date1 (author_id ctx) receiver_id sender_id description
        confirm VNone VNone VNone VNone VNone ;;
    for_each (split "," transaction_string) (fun coinstring =>
      amount <- lift_opt ValueError (int (drop_last coinstring)) ;;
      currency <- ret (last coinstring) ;;
      when (negb (in_tuple currency CURRENCIES_SHORT))
        (send_return (Text ("Invalid currency detected:" ++ currency))) ;;
      i <- lift_opt ValueError (index currency CURRENCIES_SHORT) ;;
      currency <- lift_opt ValueError (nth_error CURRENCIES i) ;;
      set transaction currency (VInt amount)) ;;
    when (negb (sender_id =? receiver_id))
      (transaction2 <-
         create_new date2 (author_id ctx) sender_id sender_id description
           confirm VNone VNone VNone VNone VNone ;;
       for_each CURRENCIES (fun currency =>
         amount <- get transaction currency ;;
         when (truthy amount)
           (negated <- lift_exn (mul amount (-1)) ;;
            set transaction2 currency negated))) ;;
    ret (Added ("Transaction added"
                ++ (if negb confirm then " (pending confirmation)" else ""))
               transaction)).

(** ** Balance *)

(** A [dict] keyed by currency, in insertion order. *)
Definition Coins : Type := list (Currency * value).

Fixpoint dict_get (d : Coins) (c : Currency) : option value :=
  match d with
  | [] => None
  | (k, v) :: r => if Currency_eqb k c then Some v else dict_get r c
  end.

Fixpoint dict_set (d : Coins) (c : Currency) (v : value) : Coins :=
  match d with
  | [] => [(c, v)]
  | (k, w) :: r =>
      if Currency_eqb k c then (k, v) :: r else (k, w) :: dict_set r c v
  end.

(** [coins[c] += x]: a missing key or a [None] operand raises (both are
    reported as [TypeError] here; the key is never missing). *)
Definition iadd (coins : Coins) (c : Currency) (x : value) : Exn + Coins :=
  match dict_get coins c with
  | None => inl TypeError
  | Some old =>
      match add old x with
      | inr new => inr (dict_set coins c new)
      | inl e => inl e
      end
  end.

(** A loop that threads an accumulator and stops at the first exception. *)
Fixpoint fold_exn {A S} (l : list A) (body : S -> A -> Exn + S) (s : S)
  : Exn + S :=
  match l with
  | [] => inr s
  | x :: r =>
      match body s x with
      | inr s' => fold_exn r body s'
      | inl e => inl e
      end
  end.

(** [Bank.get_balance] (bank.py, lines 37-46). *)
Definition get_balance (st : Store) (account : Z) : Exn + Coins :=
  let coins := map (fun c => (c, VInt 0)) CURRENCIES in
  fold_exn (TransactionDB.query_all st account true)
    (fun coins transaction =>
       fold_exn CURRENCIES
         (fun coins c => iadd coins c (or (getattr transaction c) (VInt 0)))
         coins)
    coins.

(** ** History *)

(** Modelled from the spec: the column [account_nr] of [TransactionData]
    is declared in [models/core.py], which is not among the sources.  The
    specification's [range] selects the records "involving [account_id]
    (as receiver)", and [format_transaction] prints [account_nr] as the
    receiver. *)
Definition account_nr (t : TransactionData) : Z := receiver_id t.

(** Insert a row into a list that is ordered by key, largest first. *)
Fixpoint insert_desc (t : TransactionData) (l : list TransactionData)
  : list TransactionData :=
  match l with
  | [] => [t]
  | u :: r => if _id u <=? _id t then t :: u :: r else u :: insert_desc t r
  end.

(** [.order_by(TransactionData._id.desc())]. *)
Fixpoint order_by_id_desc (l : list TransactionData) : list TransactionData :=
  match l with
  | [] => []
  | t :: r => insert_desc t (order_by_id_desc r)
  end.

(** [.limit(n)] for a non-negative [n]. *)
Definition limit (n : nat) (l : list TransactionData) := firstn n l.

(** [l[a:b]] for non-negative [a] and [b]. *)
Definition slice {A} (a b : nat) (l : list A) : list A := skipn a (firstn b l).

(** [Bank.print_log] (bank.py, lines 135-147): the transactions whose
    fields are added to the embed, in the order they are added.  [start]
    and [num] are non-negative. *)
Definition print_log (st : Store) (start num : nat) (account : Z)
  : list TransactionData :=
  rev (slice start (num + start)
         (limit (num + start)
            (order_by_id_desc
               (filter (fun t => account_nr t =? account) (rows st))))).

(** ** Confirmation *)

(** [Query.one()]. *)
Definition one (l : list TransactionData) : Exn + TransactionData :=
  match l with
  | [t] => inr t
  | [] => inl NoResultFound
  | _ => inl MultipleResultsFound
  end.

(** The decimal text of an [int], as an f-string prints it. *)
Definition repr (z : Z) : string :=
  match z with
  | Z0 => "0"
  | Zpos p => NilEmpty.string_of_uint (Pos.to_uint p)
  | Zneg p => "-" ++ NilEmpty.string_of_uint (Pos.to_uint p)
  end.

(** [Bank.bank_confirm_transaction] (bank.py, lines 212-217). *)
Definition bank_confirm_transaction (transaction_id : Z)
  : Store -> Store * Outcome :=
  fun st =>
    match one (filter (fun t => _id t =? transaction_id) (rows st)) with
    | inr transaction =>
        (update st (_id transaction) set_confirmed,
         Sent (Text ("Transaction " ++ repr transaction_id ++ " confirmed")))
    | inl e => (st, Raised e)
    end.

(** ** Account commands *)

(** The keys of the rows of the user table. *)
Definition UserTable : Type := list Z.

Definition count (user : Z) (users : UserTable) : nat :=
  List.length (filter (fun u => u =? user) users).

Section Accounts.

(** What the global name [UserData] is bound to in the module: bank.py
    imports [TransactionData] and [TransactionDB] only, so as the file
    stands the name is unbound ([None]) and looking it up raises
    [NameError]; [Some users] is a module where the name is bound to the
    user table. *)
Variable UserData : option UserTable.

(** [Bank.bank_add] (bank.py, lines 171-178).  The call
    [process_transaction(ctx, transaction_string, description, 0,
    confirm=True)] leaves the parameter [receiver_id] without an
    argument: binding the arguments raises [TypeError] and the body of
    [process_transaction] does not run. *)
Definition bank_add (ctx : Context)
    (transaction_string description : option string)
  : Store -> Store * Outcome :=
  fun st => (st, Raised TypeError).

(** [Bank.account_add] (bank.py, lines 236-250): the lookup of
    [UserData] comes first; the call of [process_transaction] again
    leaves [receiver_id] without an argument.  No sign is tested. *)
Definition account_add (ctx : Context)
    (transaction_string description : option string)
  : Store -> Store * Outcome :=
  fun st =>
    match UserData with
    | None => (st, Raised NameError)
    | Some users => (st, Raised TypeError)
    end.

(** [Bank.account_send_money] (bank.py, lines 263-276).  The last call
    passes a keyword [send] that [process_transaction] does not take
    (and no [receiver_id]): it raises [TypeError] before the body
    runs. *)
Definition account_send_money (ctx : Context) (receiver : Z)
    (transaction_string description : option string)
  : Store -> Store * Outcome :=
  fun st =>
    match transaction_string with
    | None => (st, Raised TypeError)
    | Some s =>
        if contains "-" s
        then (st, Sent (Text "You can only send positive amounts"))
        else
          match UserData with
          | None => (st, Raised NameError)
          | Some users =>
              if (count receiver users =? 0)%nat
              then (st, Sent (Text "That user does not have an account"))
              else (st, Raised TypeError)
          end
    end.

End Accounts.

(** ** Definitions used to state the properties *)

(** The store invariant: keys are unique and below the next key. *)
Definition wf (st : Store) : Prop :=
  NoDup (map _id (rows st)) /\ Forall (fun t => _id t < next_id st) (rows st).

(** The characters an amount string may hold. *)
Definition valid_char (c : ascii) : bool :=
  contains c ",+-1234567890" || in_tuple (String c "") CURRENCIES_SHORT.

(** The errors found before the table is touched: a missing field, then
    the first character that an amount string may not hold. *)
Definition validation_error (description transaction_string : option string)
  : option Message :=
  if falsy description || falsy transaction_string
  then Some (Text "Please provide a transaction string and a description")
  else
    match find (fun c => negb (valid_char c))
               (chars (str transaction_string)) with
    | Some c => Some (Text ("Invalid character in transaction " ++ String c ""))
    | None => None
    end.

Definition is_sign (c : ascii) : bool := Ascii.eqb c "+" || Ascii.eqb c "-".

Definition is_letter (c : ascii) : bool := contains c "pgesc".

(** One or more digits followed by one denomination letter. *)
Fixpoint digits_letter (seen : bool) (s : string) : bool :=
  match s with
  | "" => false
  | String c r =>
      match r with
      | "" => seen && is_letter c
      | _ => is_digit c && digits_letter true r
      end
  end.

(** An entry of the amount-string grammar: [[-+]?[0-9]+[pgesc]]. *)
Definition entry_grammar (e : string) : bool :=
  match e with
  | "" => false
  | String c r => if is_sign c then digits_letter false r
                  else digits_letter false e
  end.

(** The letter that stands for a currency in an amount string. *)
Definition letter (c : Currency) : string := Py.first (name c).

(** The number an attribute counts for in a sum: [None] counts as zero. *)
Definition amount (v : value) : Z :=
  match v with
  | VInt z => z
  | VNone => 0
  end.

Definition sum (l : list Z) : Z := fold_right Z.add 0 l.

(** The sum of one denomination over the confirmed transactions received
    by an account. *)
Definition total (st : Store) (account : Z) (c : Currency) : Z :=
  sum (map (fun t => amount (getattr t c))
           (filter (fun t => confirmed t && (receiver_id t =? account))
                   (rows st))).

(** The records of an account, newest first. *)
Definition newest_first (st : Store) (account : Z) : list TransactionData :=
  order_by_id_desc (filter (fun t => receiver_id t =? account) (rows st)).

(** The attributes of the mirror record of [t1], written over [t2]. *)
Definition mirror (l : list Currency) (t1 t2 : TransactionData)
  : TransactionData :=
  fold_left
    (fun t c =>
       if truthy (getattr t1 c)
       then setattr t c (VInt (amount (getattr t1 c) * -1))
       else t)
    l t2.

(** The currency and amount that the loop over the entries reads from one
    entry, when it reads one. *)
Definition entry (e : string) : option (Currency * Z) :=
  match int (drop_last e), index (last e) CURRENCIES_SHORT with
  | Some z, Some i =>
      match nth_error CURRENCIES i with
      | Some c => Some (c, z)
      | None => None
      end
  | _, _ => None
  end.

(** The writes of a list of entries, in order. *)
Definition write_entries (l : list (Currency * Z)) (t : TransactionData)
  : TransactionData :=
  fold_left (fun t e => setattr t (fst e) (VInt (snd e))) l t.

(** The columns that no attribute write of the ledger touches. *)
Definition header (t : TransactionData) :=
  (_id t, date t, user_id t, receiver_id t, sender_id t, description t,
   confirmed t).

(** The primary record of a transaction whose entries read as [parsed],
    under the key [n]. *)
Definition primary (ctx : Context) (date1 d : string) (sender receiver : Z)
    (confirm : bool) (parsed : list (Currency * Z)) (n : Z)
  : TransactionData :=
  write_entries parsed
    (mkTransaction n date1 (author_id ctx) receiver sender d confirm
       VNone VNone VNone VNone VNone).

(** The second record, as the code fills it from the primary record
    [t1]. *)
Definition second (ctx : Context) (date2 d : string) (sender : Z)
    (confirm : bool) (t1 : TransactionData) (n : Z) : TransactionData :=
  mirror CURRENCIES t1
    (mkTransaction (n + 1) date2 (author_id ctx) sender sender d confirm
       VNone VNone VNone VNone VNone).

(** The table after a transaction that went through. *)
Definition stored (ctx : Context) (date1 date2 d : string)
    (sender receiver : Z) (confirm : bool) (parsed : list (Currency * Z))
    (st : Store) : Store :=
  let t1 := primary ctx date1 d sender receiver confirm parsed (next_id st) in
  if sender =? receiver
  then mkStore (rows st ++ [t1]) (next_id st + 1)
  else mkStore (rows st ++ [t1; second ctx date2 d sender confirm t1
                                  (next_id st)])
               (next_id st + 1 + 1).

(** The title of the embed that reports a new transaction. *)
Definition title (confirm : bool) : string :=
  "Transaction added"
  ++ (if negb confirm then " (pending confirmation)" else "").

(** The dictionary that holds the number [f c] for each currency [c]. *)
Definition coins_of (f : Currency -> Z) : Coins :=
  map (fun c => (c, VInt (f c))) CURRENCIES.

(** A context for examples. *)
Definition dora : Context := mkContext 7.

From Stdlib Require DecimalPos.

(** ** Further commands of the bank cog *)

(** [Bank.bank_delete] (bank.py, lines 194-198): [Query.delete()] removes
    the rows that match the key, and the command answers in every case. *)
Definition bank_delete (transaction_id : Z) : Store -> Store * Outcome :=
  fun st =>
    (mkStore (filter (fun t => negb (_id t =? transaction_id)) (rows st))
             (next_id st),
     Sent (Text "Success")).

(** [Bank.print_pending] (bank.py, lines 149-155): the transactions whose
    fields are added to the embed, those that [filter_by(confirmed=0)]
    selects, in the order of the table. *)
Definition print_pending (st : Store) : list TransactionData :=
  filter (fun t => Bool.eqb (confirmed t) false) (rows st).

(** What a transaction of amount [x] moves on the balance of [account]:
    the receiver gains it and, when sender and receiver differ, the sender
    loses it; nothing moves before confirmation. *)
Definition moved (confirm : bool) (sender receiver account x : Z) : Z :=
  if confirm
  then (if receiver =? account then x else 0)
       - (if negb (sender =? receiver) && (sender =? account) then x else 0)
  else 0.

(** What one row counts for in the balance of [account], for the
    denomination [c]. *)
Definition counts (account : Z) (c : Currency) (t : TransactionData) : Z :=
  if confirmed t && (receiver_id t =? account)
  then amount (getattr t c) else 0.

(** How the loop over the entries ends at the first entry [e] that does
    not read. *)
Definition stops_with (e : string) : Outcome :=
  match int (drop_last e) with
  | None => Raised ValueError
  | Some _ => Sent (Text ("Invalid currency detected:" ++ last e))
  end.

(** The number of digits that [int] counts in its argument, and the
    largest number of digits that the interpreter reads
    ([sys.int_info.default_max_str_digits]). *)
Definition digit_count (s : string) : nat :=
  List.length (filter is_digit (chars s)).

Definition int_max_str_digits : nat := 4300.

(** A table for examples: a pending payment of 2 gold from account 7 to
    account 42 with its second record, and a confirmed donation. *)
Definition payment : TransactionData :=
  mkTransaction 1 "d1" 7 42 7 "Pay for last mission" false
    VNone (VInt 2) VNone VNone VNone.

Definition payment_second : TransactionData :=
  mkTransaction 2 "d2" 7 7 7 "Pay for last mission" false
    VNone (VInt (-2)) VNone VNone VNone.

Definition donation : TransactionData :=
  mkTransaction 3 "d3" 9 42 0 "Donation" true
    VNone VNone VNone (VInt 5) VNone.

Definition ledger : Store := mkStore [payment; payment_second; donation] 4.

(** * The management cog (src/cogs/management.py) *)

Module Management.

(** ** Python strings, lists and paths *)

Definition nl : string := String "010" "".

(** [str.lower()], on ASCII letters. *)
Definition lower_char (c : ascii) : ascii :=
  let n := nat_of_ascii c in
  if ((65 <=? n) && (n <=? 90))%nat then ascii_of_nat (n + 32) else c.

Fixpoint lower (s : string) : string :=
  match s with
  | "" => ""
  | String c r => String (lower_char c) (lower r)
  end.

(** [s.startswith(p)]. *)
Fixpoint startswith (s p : string) : bool :=
  match p, s with
  | "", _ => true
  | String _ _, "" => false
  | String a p', String b s' => Ascii.eqb a b && startswith s' p'
  end.

(** [a in b] for two strings: [a] occurs in [b]. *)
Fixpoint is_in (a b : string) : bool :=
  startswith b a
  || match b with
     | "" => false
     | String _ b' => is_in a b'
     end.

(** [s.replace(old, new)] for one-character [old] and [new]. *)
Fixpoint replace (old new : ascii) (s : string) : string :=
  match s with
  | "" => ""
  | String c r =>
      String (if Ascii.eqb c old then new else c) (replace old new r)
  end.

(** [sep.join(l)]. *)
Fixpoint join (sep : string) (l : list string) : string :=
  match l with
  | [] => ""
  | [x] => x
  | x :: r => x ++ sep ++ join sep r
  end.

(** [s.rfind(c)] for a one-character [c]: the last index of [c], or -1. *)
Fixpoint rfind_from (c : ascii) (s : string) (i found : Z) : Z :=
  match s with
  | "" => found
  | String d r => rfind_from c r (i + 1) (if Ascii.eqb d c then i else found)
  end.

Definition rfind (c : ascii) (s : string) : Z := rfind_from c s 0 (-1).

(** [s[a:b]] for [0 <= a <= b]. *)
Definition substr (a b : Z) (s : string) : string :=
  substring (Z.to_nat a) (Z.to_nat (b - a)) s.

(** [os.path.splitext(p)] (posixpath): the extension starts at the last
    dot of the last path component, unless only dots come before it. *)
Definition splitext (p : string) : string * string :=
  let sepIndex := rfind "/" p in
  let dotIndex := rfind "." p in
  if (sepIndex <? dotIndex)
     && existsb (fun c => negb (Ascii.eqb c "."))
                (chars (substr (sepIndex + 1) dotIndex p))
  then (substr 0 dotIndex p,
        substr dotIndex (Z.of_nat (String.length p)) p)
  else (p, "").

(** [os.path.join(a, b)] (posixpath). *)
Definition path_join (a b : string) : string :=
  if startswith b "/" then b
  else if String.eqb a "" || String.eqb (Py.last a) "/" then a ++ b
  else a ++ "/" ++ b.

(** [l.pop(n)]: the list without its item of index [n], negative indices
    counting from the end; [None] stands for [IndexError]. *)
Definition pop {A} (l : list A) (n : Z) : option (list A) :=
  let len := Z.of_nat (List.length l) in
  let i := if n <? 0 then n + len else n in
  if (i <? 0) || (len <=? i) then None
  else Some (firstn (Z.to_nat i) l ++ skipn (S (Z.to_nat i)) l)%list.

(** ** The client *)

Inductive Activity : Type :=
| default_activity
| startup_error_activity
| runtime_error_activity.

Inductive Exn : Type :=
| IndexError
| UnboundLocalError.

(** What the commands read of a stored context: [invoked_with],
    [author.name], and the name of the channel when it is a
    [GroupChannel]. *)
Record ErrorContext : Type := mkErrorContext {
  invoked_with : string;
  author_name : string;
  group_channel : option string
}.

(** An item of [client.last_errors], a tuple [(error, date, ctx)]: the
    text of the error, its formatted traceback, [date.isoformat()], and the
    context when there is one. *)
Record StoredError : Type := mkStoredError {
  exc : string;
  traceback : string;
  date_iso : string;
  error_ctx : option ErrorContext
}.

(** The state of the client that the cog reads and writes: the error log,
    the presence shown, and the names of the loaded extensions (the keys
    of [client.extensions], in order). *)
Record Client : Type := mkClient {
  last_errors : list StoredError;
  presence : Activity;
  extensions : list string
}.

(** How a command ends: the state of the client, the messages sent, and
    the exception raised, if any. *)
Definition Result : Type := Client * list string * option Exn.

(** ** The error log *)

(** [Management.error] (management.py, lines 222-245). *)
Definition error (client : Client) : list string :=
  let error_log := last_errors client in
  match error_log with
  | [] => ["Error log is empty"]
  | _ =>
      let first :=
        "```css" ++ nl ++ "Number of stored errors: "
        ++ repr (Z.of_nat (List.length error_log)) in
      let item (ie : nat * StoredError) :=
        let (i, e) := ie in
        let call_info :=
          match error_ctx e with
          | Some c => "CMD: " ++ invoked_with c
          | None => "no command"
          end in
        repr (Z.of_nat i) ++ ": ["
        ++ hd "" (split "." (date_iso e))
        ++ "] - ["
        ++ call_info
        ++ "]" ++ nl ++ "Exception: " ++ exc e in
      let response :=
        ([first]
         ++ map item (combine (seq 0 (List.length error_log)) error_log)
         ++ ["```"])%list in
      [join nl response]
  end.

(** [Management.error_clear] (management.py, lines 251-261). *)
Definition error_clear (n : option Z) (client : Client) : Result :=
  match n with
  | None =>
      (mkClient [] default_activity (extensions client),
       ["Error log cleared"], None)
  | Some n =>
      match pop (last_errors client) n with
      | None => (client, [], Some IndexError)
      | Some log =>
          (mkClient log default_activity (extensions client),
           ["Deleted error #" ++ repr n], None)
      end
  end.

(** The lines of the answer of [error_traceback] before the traceback
    (management.py, lines 292-300).  [delta_str] is the text of the time
    since the error, which the code computes from the clock. *)
Definition traceback_header (delta_str : string) (e : StoredError)
  : list string :=
  let context_lines :=
    match error_ctx e with
    | Some c =>
        ["`Command: " ++ invoked_with c ++ "`";
         "`User: " ++ author_name c ++ "`";
         "`Channel:" ++ match group_channel c with
                        | Some channel_name => channel_name
                        | None => " DM"
                        end ++ "`"]
    | None => ["`Error happened outside of command`"]
    end in
  let first := "`Error occured " ++ delta_str ++ "`" in
  let last := "```python" ++ nl in
  ([first] ++ context_lines ++ [last])%list.

(** The loop over the lines of the traceback (management.py, lines
    302-311): the messages sent, in order. *)
Fixpoint send_lines (lines : list string) (response : list string)
    (num_chars : nat) : list string :=
  match lines with
  | [] => [join nl (response ++ ["```"])%list]
  | line :: rest =>
      let num_chars := (num_chars + String.length line)%nat in
      let response := (response ++ [line])%list in
      if (1900 <? num_chars)%nat
      then join nl (response ++ ["```"])%list
           :: send_lines rest ["```python" ++ nl] 0
      else send_lines rest response num_chars
  end.

(** [Management.error_traceback] (management.py, lines 267-311): the
    messages sent. *)
Definition error_traceback (delta_str : string) (n : option Z)
    (client : Client) : list string :=
  let error_log := last_errors client in
  match error_log with
  | [] => ["Error log is empty"]
  | _ =>
      match n with
      | None => "Please specify an error index" :: error client
      | Some n =>
          if (Z.of_nat (List.length error_log) <=? n) || (n <? 0)
          then ["Error index does not exist"]
          else
            match nth_error error_log (Z.to_nat n) with
            | None => []
            | Some e =>
                let response := traceback_header delta_str e in
                let num_chars :=
                  fold_right Nat.add 0%nat (map String.length response) in
                send_lines (split "010" (traceback e)) response num_chars
            end
      end
  end.

(** ** Extensions *)

(** [Management.unload_extension] (management.py, lines 147-161).
    [client.unload_extension] takes the name off the loaded extensions. *)
Definition unload_extension (extension_name : string) (client : Client)
  : Result :=
  match find (fun cog_name => is_in extension_name cog_name)
             (extensions client) with
  | None => (client, [], Some UnboundLocalError)
  | Some target_extension =>
      if is_in (lower target_extension) "cogs.management"
      then (client,
            ["```diff" ++ nl ++ "- " ++ target_extension
             ++ " can't be unloaded"
             ++ nl ++ "+ try !reload " ++ target_extension ++ "!```"],
            None)
      else if negb (existsb (String.eqb target_extension)
                            (extensions client))
      then (client, [], None)
      else (mkClient (last_errors client) (presence client)
              (filter (fun x => negb (String.eqb x target_extension))
                      (extensions client)),
            ["```css" ++ nl ++ "Extension [" ++ target_extension
             ++ "] unloaded.```"],
            None)
  end.

(** What [listdir] and [path.isdir] show of a directory: files, and
    directories with their own content.  The tree is finite. *)
#[warnings="-register-all"]
Inductive Element : Type :=
| File (element : string)
| Directory (element : string) (content : list Element).

Definition element_name (e : Element) : string :=
  match e with
  | File element => element
  | Directory element _ => element
  end.

(** One turn of the loop of [crawl_cogs]. *)
Fixpoint crawl_element (directory : string) (e : Element) : list string :=
  if in_tuple (element_name e) ["samples"; "utils"] then []
  else
    match e with
    | Directory element content =>
        let abs_el := path_join directory element in
        (fix crawl (l : list Element) : list string :=
           match l with
           | [] => []
           | x :: r => List.app (crawl_element abs_el x) (crawl r)
           end) content
    | File element =>
        let (filename, ext) := splitext element in
        if String.eqb ext ".py"
        then
          let dot_dir := replace "\" "." directory in
          let dot_dir := replace "/" "." dot_dir in
          [dot_dir ++ "." ++ filename]
        else []
    end.

(** [Management.crawl_cogs] (management.py, lines 100-114), on the
    listing of [directory]. *)
Fixpoint crawl_cogs (directory : string) (listing : list Element)
  : list string :=
  match listing with
  | [] => []
  | e :: r => List.app (crawl_element directory e) (crawl_cogs directory r)
  end.

(** ** Definitions used to state the properties *)

(** The messages that hold the groups of lines [groups], the first after
    the lines [header], each other in a code block of its own. *)
Definition framed (header : list string) (groups : list (list string))
  : list (list string) :=
  let opening := "```python" ++ nl in
  match groups with
  | [] => []
  | g :: gs =>
      (header ++ g ++ ["```"])%list
      :: map (fun g => (opening :: g ++ ["```"])%list) gs
  end.

(** The characters that the loop counts for a list of lines. *)
Definition counted (l : list string) : nat :=
  fold_right Nat.add 0%nat (map String.length l).

(** A group of lines that the loop did not cut too late: what it holds
    before its last line stays within the bound. *)
Definition within (start : nat) (g : list string) : Prop :=
  (List.length g <= 1)%nat \/ (start + counted (removelast g) <= 1900)%nat.

(** A directory path with its separators turned into dots. *)
Definition dotted (directory : string) : string :=
  replace "/" "." (replace "\" "." directory).

(** A directory path that [path.join] extends with a separator: not
    empty, and not ending in one. *)
Definition rooted (directory : string) : bool :=
  negb (String.eqb directory "")
  && negb (String.eqb (Py.last directory) "/").

(** A name as [listdir] gives it: not empty, without separator. *)
Definition plain (element : string) : bool :=
  negb (String.eqb element "")
  && negb (contains "/" element) && negb (contains "\" element).

Fixpoint plain_element (e : Element) : bool :=
  plain (element_name e)
  && match e with
     | File _ => true
     | Directory _ content =>
         (fix all (l : list Element) : bool :=
            match l with
            | [] => true
            | x :: r => plain_element x && all r
            end) content
     end.

(** The module names below the dotted path [prefix]: one for each [.py]
    file, outside of what is called [samples] or [utils]. *)
Fixpoint modules_element (prefix : string) (e : Element) : list string :=
  if in_tuple (element_name e) ["samples"; "utils"] then []
  else
    match e with
    | Directory element content =>
        (fix below (l : list Element) : list string :=
           match l with
           | [] => []
           | x :: r =>
               List.app (modules_element (prefix ++ "." ++ element) x)
                        (below r)
           end) content
    | File element =>
        let (filename, ext) := splitext element in
        if String.eqb ext ".py" then [prefix ++ "." ++ filename] else []
    end.

Fixpoint modules (prefix : string) (listing : list Element) : list string :=
  match listing with
  | [] => []
  | e :: r => List.app (modules_element prefix e) (modules prefix r)
  end.

Section ElementInduction.

Variable P : Element -> Prop.
Hypothesis file_case : forall element, P (File element).
Hypothesis directory_case :
  forall element content, Forall P content -> P (Directory element content).

(** Induction on a directory tree, with the property at hand for every
    element of a directory. *)
Fixpoint Element_tree_ind (e : Element) : P e :=
  match e with
  | File element => file_case element
  | Directory element content =>
      directory_case element content
        ((fix all (l : list Element) : Forall P l :=
            match l with
            | [] => Forall_nil P
            | x :: r => Forall_cons x (Element_tree_ind x) (all r)
            end) content)
  end.

End ElementInduction.

End Management.

(** ** Validation before the first write *)

Lemma negb_valid_char (c : ascii) :
  negb (contains c ",+-1234567890")
  && negb (in_tuple (String c "") CURRENCIES_SHORT)
  = negb (valid_char c).
Proof. unfold valid_char. now rewrite negb_orb. Qed.

(** The loop over the characters leaves the table alone and ends the
    command at the first character it rejects. *)
Lemma char_loop (cs : list ascii) (st : Store) :
  for_each cs (fun c =>
    when (negb (contains c ",+-1234567890")
          && negb (in_tuple (String c "") CURRENCIES_SHORT))
      (send_return
         (Text ("Invalid character in transaction " ++ String c "")))) st
  = match find (fun c => negb (valid_char c)) cs with
    | Some c =>
        (st, inr (Sent (Text ("Invalid character in transaction "
                              ++ String c ""))))
    | None => (st, inl tt)
    end.
Proof.
  induction cs as [|c cs IH]; [reflexivity|].
  cbn [for_each find]. unfold bind at 1.
  rewrite negb_valid_char.
  destruct (negb (valid_char c)); cbn [when].
  - reflexivity.
  - unfold ret at 1. exact IH.
Qed.

(** X19.  When the description or the amount string is missing or empty,
    or the amount string holds a character outside [,+-1234567890] and the
    letters [p g e s c], [process_transaction] sends the matching message
    (for a character, the one that names the first such character) and
    the table is exactly what it was: these two checks come before the
    first write. *)
Theorem process_transaction_rejects_before_write
    (ctx : Context) (date1 date2 : string)
    (transaction_string description : option string)
    (sender receiver : Z) (confirm : bool) (st : Store) (m : Message)
    (H : validation_error description transaction_string = Some m) :
  process_transaction ctx date1 date2 transaction_string description
    sender receiver confirm st = (st, Sent m).
Proof.
  unfold validation_error in H.
  unfold process_transaction, run.
  unfold bind at 1.
  destruct (falsy description || falsy transaction_string); cbn [when].
  - injection H as <-. reflexivity.
  - unfold ret at 1. unfold bind at 1. rewrite char_loop.
    destruct (find _ _).
    + injection H as <-. reflexivity.
    + discriminate.
Qed.

Lemma process_transaction_rejects_before_write_witness :
  validation_error (Some "Donation") (Some "2G") =
    Some (Text "Invalid character in transaction G")
  /\ process_transaction dora "d1" "d2" (Some "2G") (Some "Donation")
       0 42 true empty_store
     = (empty_store, Sent (Text "Invalid character in transaction G")).
Proof.
  split; [reflexivity|].
  apply (process_transaction_rejects_before_write dora "d1" "d2"
           (Some "2G") (Some "Donation") 0 42 true empty_store).
  reflexivity.
Defined.

(** C1.  The amount string [2g,25] passes the two checks that come before
    the first write; its second entry ends in [5], which is no
    denomination letter.  The command reports that entry, but the record
    created before the entries are read stays in the table, confirmed and
    with the amount of the first entry: the balance of the receiver has
    grown by 2 gold. *)
Lemma unrecognized_denomination_leaves_record :
  let r := process_transaction dora "d1" "d2" (Some "2g,25")
             (Some "Donation") 0 42 true empty_store in
  validation_error (Some "Donation") (Some "2g,25") = None
  /\ snd r = Sent (Text "Invalid currency detected:5")
  /\ rows (fst r)
     = [mkTransaction 1 "d1" 7 42 0 "Donation" true
          VNone (VInt 2) VNone VNone VNone]
  /\ get_balance empty_store 42 = inr (coins_of (fun _ => 0))
  /\ get_balance (fst r) 42
     = inr (coins_of (fun c => if Currency_eqb c Gold then 2 else 0)).
Proof.
  vm_compute. repeat split.
Qed.

(** ** Attribute writes on stored records *)

Lemma setattr_id (t : TransactionData) (c : Currency) (v : value) :
  _id (setattr t c v) = _id t.
Proof. destruct c; reflexivity. Qed.

Lemma Currency_eqb_eq (a b : Currency) : Currency_eqb a b = true <-> a = b.
Proof. destruct a, b; cbn; split; intros H; congruence. Qed.

Lemma Currency_eqb_refl (a : Currency) : Currency_eqb a a = true.
Proof. now apply Currency_eqb_eq. Qed.

Lemma Currency_eqb_neq (a b : Currency) : a <> b -> Currency_eqb a b = false.
Proof.
  intros H. destruct (Currency_eqb a b) eqn:E; [|reflexivity].
  apply Currency_eqb_eq in E. contradiction.
Qed.

Lemma getattr_setattr (t : TransactionData) (c c' : Currency) (v : value) :
  getattr (setattr t c v) c' = if Currency_eqb c c' then v else getattr t c'.
Proof. destruct c, c'; reflexivity. Qed.

Lemma header_setattr (t : TransactionData) (c : Currency) (v : value) :
  header (setattr t c v) = header t.
Proof. destruct c; reflexivity. Qed.

Lemma header_write_entries (l : list (Currency * Z)) (t : TransactionData) :
  header (write_entries l t) = header t.
Proof.
  unfold write_entries. revert t.
  induction l as [|e l IH]; intros t; [reflexivity|].
  cbn [fold_left]. rewrite IH. apply header_setattr.
Qed.

Lemma header_mirror (l : list Currency) (t1 t2 : TransactionData) :
  header (mirror l t1 t2) = header t2.
Proof.
  unfold mirror. revert t2.
  induction l as [|c l IH]; intros t2; [reflexivity|].
  cbn [fold_left]. rewrite IH.
  destruct (truthy (getattr t1 c)); [|reflexivity].
  apply header_setattr.
Qed.

Lemma header_id (t u : TransactionData) : header t = header u -> _id t = _id u.
Proof. unfold header. congruence. Qed.

Lemma header_confirmed (t u : TransactionData) :
  header t = header u -> confirmed t = confirmed u.
Proof. unfold header. congruence. Qed.

Lemma map_unless (tid : Z) (f : TransactionData -> TransactionData)
    (l : list TransactionData) :
  Forall (fun u => _id u <> tid) l ->
  map (fun t => if _id t =? tid then f t else t) l = l.
Proof.
  induction 1 as [|u l Hu _ IH]; [reflexivity|].
  cbn. rewrite IH. apply Z.eqb_neq in Hu. now rewrite Hu.
Qed.

(** Writing through an object changes its row and no other. *)
Lemma update_at (old post : list TransactionData) (t : TransactionData)
    (k tid : Z) (f : TransactionData -> TransactionData) :
  Forall (fun u => _id u <> tid) old ->
  Forall (fun u => _id u <> tid) post ->
  _id t = tid ->
  update (mkStore (old ++ t :: post) k) tid f = mkStore (old ++ f t :: post) k.
Proof.
  intros Hold Hpost Ht. unfold update. cbn [rows next_id].
  rewrite map_app. cbn [map].
  rewrite (map_unless tid f old Hold), (map_unless tid f post Hpost).
  apply Z.eqb_eq in Ht. now rewrite Ht.
Qed.

Lemma row_at (old post : list TransactionData) (t : TransactionData)
    (k tid : Z) :
  Forall (fun u => _id u <> tid) old ->
  _id t = tid ->
  row (mkStore (old ++ t :: post) k) tid = Some t.
Proof.
  intros Hold Ht. unfold row. cbn [rows].
  induction Hold as [|u l Hu _ IH]; cbn.
  - apply Z.eqb_eq in Ht. now rewrite Ht.
  - apply Z.eqb_neq in Hu. now rewrite Hu.
Qed.

(** ** Reading the entries *)

Lemma index_in_tuple (x : string) (t : list string) (i : nat) :
  index x t = Some i -> in_tuple x t = true.
Proof.
  revert i. induction t as [|y t IH]; intros i; cbn; [discriminate|].
  destruct (String.eqb x y); [reflexivity|].
  destruct (index x t); [|discriminate]. intros _. now apply (IH n).
Qed.

Lemma entry_inv (e : string) (c : Currency) (z : Z) :
  entry e = Some (c, z) ->
  int (drop_last e) = Some z
  /\ exists i, index (last e) CURRENCIES_SHORT = Some i
               /\ nth_error CURRENCIES i = Some c.
Proof.
  unfold entry. destruct (int (drop_last e)); [|discriminate].
  destruct (index (last e) CURRENCIES_SHORT) as [i|]; [|discriminate].
  destruct (nth_error CURRENCIES i) eqn:E; [|discriminate].
  intros [= <- <-]. eauto.
Qed.

(** One turn of the loop over the entries, on an entry that reads. *)
Lemma entry_step (tid : Z) (e : string) (c : Currency) (z : Z) (st : Store) :
  entry e = Some (c, z) ->
  (amount <- lift_opt ValueError (int (drop_last e)) ;;
   currency <- ret (last e) ;;
   when (negb (in_tuple currency CURRENCIES_SHORT))
     (send_return (Text ("Invalid currency detected:" ++ currency))) ;;
   i <- lift_opt ValueError (index currency CURRENCIES_SHORT) ;;
   currency <- lift_opt ValueError (nth_error CURRENCIES i) ;;
   set tid currency (VInt amount)) st
  = (update st tid (fun t => setattr t c (VInt z)), inl tt).
Proof.
  intros H. destruct (entry_inv e c z H) as (Hz & i & Hi & Hc).
  unfold bind. rewrite Hz. cbn [lift_opt ret].
  rewrite (index_in_tuple _ _ _ Hi). cbn [negb when ret].
  rewrite Hi. cbn [lift_opt ret]. rewrite Hc. reflexivity.
Qed.

(** The loop over the entries, when every entry reads: the writes land on
    the new record, in order. *)
Lemma entry_loop (tid k : Z) (old : list TransactionData)
    (es : list string) :
  Forall (fun u => _id u <> tid) old ->
  forall (parsed : list (Currency * Z)) (t : TransactionData),
    _id t = tid ->
    map entry es = map Some parsed ->
    for_each es (fun coinstring =>
      amount <- lift_opt ValueError (int (drop_last coinstring)) ;;
      currency <- ret (last coinstring) ;;
      when (negb (in_tuple currency CURRENCIES_SHORT))
        (send_return (Text ("Invalid currency detected:" ++ currency))) ;;
      i <- lift_opt ValueError (index currency CURRENCIES_SHORT) ;;
      currency <- lift_opt ValueError (nth_error CURRENCIES i) ;;
      set tid currency (VInt amount)) (mkStore (old ++ [t]) k)
    = (mkStore (old ++ [write_entries parsed t]) k, inl tt).
Proof.
  intros Hold. induction es as [|e es IH]; intros parsed t Ht Hp.
  - destruct parsed; [reflexivity|discriminate].
  - destruct parsed as [|[c z] parsed]; [discriminate|].
    cbn [map] in Hp. injection Hp as He Hp.
    cbn [for_each]. unfold bind at 1.
    rewrite (entry_step tid e c z _ He).
    rewrite (update_at old [] t k tid _ Hold (Forall_nil _) Ht).
    cbv beta iota.
    apply (IH parsed (setattr t c (VInt z))); [|exact Hp].
    now rewrite setattr_id.
Qed.

(** The loop that fills the mirror record. *)
Lemma mirror_loop (tid tid2 k : Z) (old : list TransactionData)
    (t1 : TransactionData) (l : list Currency) :
  Forall (fun u => _id u <> tid) old ->
  Forall (fun u => _id u <> tid2) old ->
  _id t1 = tid -> tid <> tid2 ->
  forall t2 : TransactionData,
    _id t2 = tid2 ->
    for_each l (fun currency =>
      amount <- get tid currency ;;
      when (truthy amount)
        (negated <- lift_exn (mul amount (-1)) ;;
         set tid2 currency negated)) (mkStore (old ++ [t1; t2]) k)
    = (mkStore (old ++ [t1; mirror l t1 t2]) k, inl tt).
Proof.
  intros Hold Hold2 H1 Hne. induction l as [|c l IH]; intros t2 H2.
  - reflexivity.
  - cbn [for_each]. unfold bind at 1. unfold bind at 1. unfold get at 1.
    rewrite (row_at old [t2] t1 k tid Hold H1).
    cbn [mirror fold_left].
    destruct (getattr t1 c) as [|z] eqn:E; cbn [truthy when].
    + unfold ret at 1. now apply IH.
    + destruct (negb (z =? 0)); cbn [when].
      * unfold bind at 1. cbn [mul lift_exn]. unfold ret at 1.
        unfold set at 1.
        replace (old ++ [t1; t2])%list with ((old ++ [t1]) ++ t2 :: [])%list
          by now rewrite <- app_assoc.
        rewrite update_at; [| |constructor|exact H2].
        -- rewrite <- app_assoc. cbn [app amount].
           apply IH. now rewrite setattr_id.
        -- apply Forall_app. split; [exact Hold2|].
           constructor; [congruence|constructor].
      * unfold ret at 1. now apply IH.
Qed.

(** ** The grammar of amount strings *)

Lemma contains_In (c : ascii) (s : string) :
  contains c s = true <-> In c (chars s).
Proof.
  induction s as [|d s IH]; cbn.
  - split; [discriminate|contradiction].
  - rewrite orb_true_iff, IH, Ascii.eqb_eq. intuition congruence.
Qed.

Lemma is_digit_valid (c : ascii) : is_digit c = true -> valid_char c = true.
Proof.
  unfold is_digit. rewrite contains_In. cbn. intros H.
  repeat (destruct H as [<-|H]; [reflexivity|]). contradiction.
Qed.

Lemma is_digit_not_sign (c : ascii) : is_digit c = true -> is_sign c = false.
Proof.
  unfold is_digit. rewrite contains_In. cbn. intros H.
  repeat (destruct H as [<-|H]; [reflexivity|]). contradiction.
Qed.

Lemma is_sign_valid (c : ascii) : is_sign c = true -> valid_char c = true.
Proof.
  unfold is_sign. rewrite orb_true_iff, !Ascii.eqb_eq.
  intros [->| ->]; reflexivity.
Qed.

Lemma is_letter_currency (c : ascii) :
  is_letter c = true ->
  valid_char c = true
  /\ exists (k : Currency) (i : nat),
       index (String c "") CURRENCIES_SHORT = Some i
       /\ nth_error CURRENCIES i = Some k.
Proof.
  unfold is_letter. rewrite contains_In. cbn. intros H.
  destruct H as [<-|H]; [split; [reflexivity|exists Platinum, 0%nat; now split]|].
  destruct H as [<-|H]; [split; [reflexivity|exists Gold, 1%nat; now split]|].
  destruct H as [<-|H]; [split; [reflexivity|exists Electrum, 2%nat; now split]|].
  destruct H as [<-|H]; [split; [reflexivity|exists Silver, 3%nat; now split]|].
  destruct H as [<-|H]; [split; [reflexivity|exists Copper, 4%nat; now split]|].
  contradiction.
Qed.

(** What a run of digits and a final letter gives to the loop over the
    entries. *)
Lemma digits_letter_reads (s : string) :
  forall (seen : bool) (acc : Z),
    digits_letter seen s = true ->
    forallb valid_char (chars s) = true
    /\ (exists z, digits acc (drop_last s) = Some z)
    /\ (seen = false -> exists d r, drop_last s = String d r
                                    /\ is_digit d = true)
    /\ (exists l (k : Currency) (i : nat),
          last s = String l ""
          /\ index (String l "") CURRENCIES_SHORT = Some i
          /\ nth_error CURRENCIES i = Some k).
Proof.
  induction s as [|c r IH]; intros seen acc H; [discriminate|].
  cbn [digits_letter] in H. destruct r as [|c' r'].
  - apply andb_true_iff in H as [-> Hl].
    destruct (is_letter_currency c Hl) as (Hv & k & i & Hi & Hk).
    cbn. rewrite Hv. repeat split; eauto; [discriminate|].
    exists c, k, i. auto.
  - apply andb_true_iff in H as [Hd H].
    destruct (IH true (10 * acc + digit_value c) H)
      as (Hv & (z & Hz) & _ & Hl).
    change (chars (String c (String c' r')))
      with (c :: chars (String c' r')).
    change (drop_last (String c (String c' r')))
      with (String c (drop_last (String c' r'))).
    change (last (String c (String c' r'))) with (last (String c' r')).
    cbn [forallb digits]. rewrite (is_digit_valid c Hd), Hv, Hd.
    repeat split; eauto.
Qed.

Lemma digits_letter_long (s : string) :
  digits_letter false s = true -> exists c c' r, s = String c (String c' r).
Proof.
  destruct s as [|c [|c' r]]; cbn; try discriminate. eauto.
Qed.

(** An entry of the grammar reads as a currency and an amount, and holds
    only characters that the first loop lets through. *)
Lemma entry_grammar_reads (e : string) :
  entry_grammar e = true ->
  forallb valid_char (chars e) = true /\ exists p, entry e = Some p.
Proof.
  destruct e as [|c r]; [discriminate|]. cbn [entry_grammar].
  destruct (is_sign c) eqn:Hs; intros H.
  - destruct (digits_letter_long r H) as (d & d' & r' & ->).
    destruct (digits_letter_reads _ false 0 H)
      as (Hv & (z & Hz) & Hne & (l & k & i & Hl & Hi & Hk)).
    destruct (Hne eq_refl) as (d0 & r0 & Hd & _).
    change (chars (String c (String d (String d' r'))))
      with (c :: chars (String d (String d' r'))).
    cbn [forallb]. rewrite (is_sign_valid c Hs), Hv. split; [reflexivity|].
    unfold entry.
    change (drop_last (String c (String d (String d' r'))))
      with (String c (drop_last (String d (String d' r')))).
    change (last (String c (String d (String d' r'))))
      with (last (String d (String d' r'))).
    rewrite Hl, Hi, Hk.
    unfold is_sign in Hs. cbn [int].
    assert (Hn : number (drop_last (String d (String d' r'))) = Some z).
    { rewrite Hd in *. exact Hz. }
    rewrite Hn.
    destruct (Ascii.eqb c "+"); [eauto|].
    cbn in Hs. rewrite Hs. cbn. eauto.
  - destruct (digits_letter_reads _ false 0 H)
      as (Hv & (z & Hz) & Hne & (l & k & i & Hl & Hi & Hk)).
    split; [exact Hv|].
    destruct (Hne eq_refl) as (d0 & r0 & Hd & Hd0).
    unfold entry. rewrite Hl, Hi, Hk.
    rewrite Hd in *. cbn [int].
    pose proof (is_digit_not_sign d0 Hd0) as Hns.
    unfold is_sign in Hns. apply orb_false_iff in Hns as [-> ->].
    change (number (String d0 r0)) with (digits 0 (String d0 r0)).
    rewrite Hz. eauto.
Qed.

Lemma split_not_nil (sep : ascii) (s : string) : split sep s <> [].
Proof.
  destruct s as [|c r]; cbn; [discriminate|].
  destruct (Ascii.eqb c sep); [discriminate|].
  destruct (split sep r); discriminate.
Qed.

(** Every character of a string is the separator or belongs to a piece. *)
Lemma split_chars (P : ascii -> bool) (s : string) :
  P ","%char = true ->
  Forall (fun e => forallb P (chars e) = true) (split "," s) ->
  forallb P (chars s) = true.
Proof.
  intros Hc. induction s as [|c r IH]; intros H; [reflexivity|].
  cbn [split] in H. change (chars (String c r)) with (c :: chars r).
  cbn [forallb]. destruct (Ascii.eqb c ",") eqn:E.
  - apply Ascii.eqb_eq in E. subst c. rewrite Hc.
    inversion H; subst. now apply IH.
  - destruct (split "," r) as [|p ps] eqn:Es.
    + now apply split_not_nil in Es.
    + inversion H as [|? ? Hp Hps]; subst.
      change (chars (String c p)) with (c :: chars p) in Hp.
      cbn [forallb] in Hp. apply andb_true_iff in Hp as [-> Hp].
      apply IH. now constructor.
Qed.

Lemma find_none_forallb {A} (P : A -> bool) (l : list A) :
  forallb P l = true -> find (fun x => negb (P x)) l = None.
Proof.
  induction l as [|x l IH]; cbn; [reflexivity|].
  intros H. apply andb_true_iff in H as [-> H]. now apply IH.
Qed.

(** An amount string of the grammar passes the character loop, is not
    empty, and each of its entries reads. *)
Lemma grammar_reads (s : string) :
  Forall (fun e => entry_grammar e = true) (split "," s) ->
  find (fun c => negb (valid_char c)) (chars s) = None
  /\ s <> ""
  /\ exists parsed, map entry (split "," s) = map Some parsed.
Proof.
  intros H. repeat split.
  - apply find_none_forallb, split_chars; [reflexivity|].
    eapply Forall_impl; [|exact H].
    intros e He. now apply entry_grammar_reads.
  - intros ->. cbn in H. inversion H; subst. discriminate.
  - induction H as [|e es He _ (parsed & IH)].
    + now exists [].
    + destruct (entry_grammar_reads e He) as (_ & p & Hp).
      exists (p :: parsed). cbn. now rewrite Hp, IH.
Qed.

(** ** A transaction that goes through *)

Lemma wf_fresh (st : Store) :
  wf st -> Forall (fun u => _id u <> next_id st) (rows st).
Proof.
  intros [_ H]. eapply Forall_impl; [|exact H]. cbn. intros u Hu. lia.
Qed.

Lemma wf_fresh_succ (st : Store) :
  wf st -> Forall (fun u => _id u <> next_id st + 1) (rows st).
Proof.
  intros [_ H]. eapply Forall_impl; [|exact H]. cbn. intros u Hu. lia.
Qed.

(** *** The invariant holds of every table the commands build *)

Lemma wf_empty : wf empty_store.
Proof. split; constructor. Qed.

Lemma wf_append (st : Store) (t : TransactionData) :
  wf st -> _id t = next_id st ->
  wf (mkStore (rows st ++ [t]) (next_id st + 1)).
Proof.
  intros [Hnd Hlt] Ht. split; cbn [rows next_id].
  - rewrite map_app. cbn [map]. apply NoDup_app; [exact Hnd| |].
    + repeat constructor. intros [].
    + intros k Hk [<-|[]]. apply in_map_iff in Hk as (u & Hu & Hin).
      pose proof (proj1 (Forall_forall _ _) Hlt u Hin) as H. cbn in H. lia.
  - apply Forall_app. split.
    + eapply Forall_impl; [|exact Hlt]. cbn. intros u Hu. lia.
    + repeat constructor. lia.
Qed.

Lemma wf_update (st : Store) (tid : Z)
    (f : TransactionData -> TransactionData) :
  (forall t, _id (f t) = _id t) -> wf st -> wf (update st tid f).
Proof.
  intros Hf [Hnd Hlt]. unfold update. split; cbn [rows next_id].
  - rewrite map_map.
    replace (map (fun t => _id (if _id t =? tid then f t else t)) (rows st))
      with (map _id (rows st)); [exact Hnd|].
    apply map_ext. intros t. destruct (_id t =? tid); [now rewrite Hf|easy].
  - apply Forall_map. eapply Forall_impl; [|exact Hlt]. cbn.
    intros t Ht. destruct (_id t =? tid); [now rewrite Hf|easy].
Qed.

Lemma wf_stored (ctx : Context) (date1 date2 d : string) (sender receiver : Z)
    (confirm : bool) (parsed : list (Currency * Z)) (st : Store) :
  wf st -> wf (stored ctx date1 date2 d sender receiver confirm parsed st).
Proof.
  intros Hwf. unfold stored.
  set (t1 := primary ctx date1 d sender receiver confirm parsed (next_id st)).
  assert (H1 : _id t1 = next_id st)
    by exact (header_id _ _ (header_write_entries parsed _)).
  pose proof (wf_append st t1 Hwf H1) as Hwf1.
  destruct (sender =? receiver); [exact Hwf1|].
  set (t2 := second ctx date2 d sender confirm t1 (next_id st)).
  assert (H2 : _id t2 = next_id st + 1)
    by exact (header_id _ _ (header_mirror CURRENCIES t1 _)).
  pose proof (wf_append _ t2 Hwf1 H2) as Hwf2. cbn [rows next_id] in Hwf2.
  now rewrite <- app_assoc in Hwf2.
Qed.

Lemma falsy_some (s : string) : s <> "" -> falsy (Some s) = false.
Proof. destruct s; [contradiction|reflexivity]. Qed.

(** When both fields are present, the amount string passes the character
    loop and each entry reads, the command stores the primary record, then
    the second record if sender and receiver differ, and reports the
    primary record. *)
Lemma process_transaction_stores
    (ctx : Context) (date1 date2 s d : string) (sender receiver : Z)
    (confirm : bool) (st : Store) (parsed : list (Currency * Z)) :
  wf st -> d <> "" -> s <> "" ->
  find (fun c => negb (valid_char c)) (chars s) = None ->
  map entry (split "," s) = map Some parsed ->
  process_transaction ctx date1 date2 (Some s) (Some d) sender receiver
    confirm st
  = (stored ctx date1 date2 d sender receiver confirm parsed st,
     Sent (Added (title confirm) (next_id st))).
Proof.
  intros Hwf Hd Hs Hchars Hparsed.
  unfold process_transaction, run.
  rewrite (falsy_some d Hd), (falsy_some s Hs).
  cbn [orb when str]. unfold bind at 1. unfold ret at 1.
  unfold bind at 1. rewrite char_loop, Hchars.
  unfold bind at 1.
  unfold create_new at 1, TransactionDB.create_new. cbn [rows next_id].
  unfold bind at 1.
  rewrite (entry_loop (next_id st) (next_id st + 1) (rows st) _
             (wf_fresh st Hwf) parsed
             (mkTransaction (next_id st) date1 (author_id ctx) receiver sender
                d confirm VNone VNone VNone VNone VNone)
             eq_refl Hparsed).
  unfold stored, second, primary, title.
  unfold bind at 1.
  destruct (sender =? receiver); cbn [negb when].
  - reflexivity.
  - unfold bind at 1.
    unfold create_new at 1, TransactionDB.create_new. cbn [rows next_id].
    rewrite <- app_assoc. cbn [app].
    rewrite (mirror_loop (next_id st) (next_id st + 1) (next_id st + 1 + 1)
               (rows st) _ CURRENCIES (wf_fresh st Hwf) (wf_fresh_succ st Hwf)).
    + reflexivity.
    + exact (header_id _ _ (header_write_entries parsed _)).
    + lia.
    + reflexivity.
Qed.

(** ** What the stored records hold *)

Lemma getattr_write_other (c : Currency) (l : list (Currency * Z)) :
  Forall (fun p => fst p <> c) l ->
  forall t, getattr (write_entries l t) c = getattr t c.
Proof.
  unfold write_entries.
  induction 1 as [|p l Hp _ IH]; intros t; [reflexivity|].
  cbn [fold_left]. rewrite IH, getattr_setattr.
  now rewrite (Currency_eqb_neq _ _ Hp).
Qed.

(** The last write of a currency is the one that stays. *)
Lemma getattr_write_last (c : Currency) (z : Z)
    (before after : list (Currency * Z)) (t : TransactionData) :
  Forall (fun p => fst p <> c) after ->
  getattr (write_entries (before ++ (c, z) :: after) t) c = VInt z.
Proof.
  intros H. unfold write_entries. rewrite fold_left_app. cbn [fold_left].
  fold (write_entries before t).
  change (fold_left _ after ?u) with (write_entries after u).
  rewrite (getattr_write_other c after H), getattr_setattr.
  cbn [fst snd]. now rewrite Currency_eqb_refl.
Qed.

Lemma getattr_mirror (l : list Currency) (t1 t2 : TransactionData)
    (c : Currency) :
  getattr (mirror l t1 t2) c =
    if existsb (Currency_eqb c) l && truthy (getattr t1 c)
    then VInt (amount (getattr t1 c) * -1)
    else getattr t2 c.
Proof.
  unfold mirror. revert t2. induction l as [|k l IH]; intros t2.
  - reflexivity.
  - cbn [fold_left existsb]. rewrite IH.
    destruct (existsb (Currency_eqb c) l && truthy (getattr t1 c)) eqn:E.
    + apply andb_true_iff in E as [-> ->]. now rewrite orb_true_r.
    + destruct (Currency_eqb c k) eqn:Ek.
      * apply Currency_eqb_eq in Ek. subst k. cbn [orb andb].
        destruct (truthy (getattr t1 c)); [|reflexivity].
        now rewrite getattr_setattr, Currency_eqb_refl.
      * cbn [orb]. rewrite E.
        destruct (truthy (getattr t1 k)); [|reflexivity].
        rewrite getattr_setattr.
        destruct (Currency_eqb k c) eqn:Ek'; [|reflexivity].
        apply Currency_eqb_eq in Ek'. subst k.
        now rewrite Currency_eqb_refl in Ek.
Qed.

(** The columns of the second record: the sender account is in both the
    receiver and the sender column, and each amount is the negated amount
    of the primary record where that one is set and not zero. *)
Lemma second_columns (ctx : Context) (date2 d : string) (sender : Z)
    (confirm : bool) (t1 : TransactionData) (n : Z) :
  header (second ctx date2 d sender confirm t1 n)
  = (n + 1, date2, author_id ctx, sender, sender, d, confirm)
  /\ forall c,
       getattr (second ctx date2 d sender confirm t1 n) c
       = if truthy (getattr t1 c)
         then VInt (amount (getattr t1 c) * -1)
         else VNone.
Proof.
  unfold second. split.
  - now rewrite header_mirror.
  - intros c. rewrite getattr_mirror.
    replace (existsb (Currency_eqb c) CURRENCIES) with true
      by (now destruct c).
    cbn [andb]. destruct (truthy (getattr t1 c)); [reflexivity|].
    now destruct c.
Qed.

Lemma index_letter (x : string) (i : nat) (c : Currency) :
  index x CURRENCIES_SHORT = Some i ->
  nth_error CURRENCIES i = Some c ->
  x = letter c.
Proof.
  cbn [index CURRENCIES_SHORT CURRENCIES map].
  repeat
    (destruct (String.eqb x _) eqn:E;
     [apply String.eqb_eq in E; intros [= <-]; cbn; intros [= <-]; exact E
     |clear E]; cbn [option_map]).
  discriminate.
Qed.

Lemma entry_letter (e : string) (c : Currency) (z : Z) :
  entry e = Some (c, z) -> last e = letter c.
Proof.
  intros H. destruct (entry_inv e c z H) as (_ & i & Hi & Hc).
  exact (index_letter _ i c Hi Hc).
Qed.

Lemma letter_entry (e : string) (c : Currency) (z : Z) :
  last e = letter c -> int (drop_last e) = Some z -> entry e = Some (c, z).
Proof.
  intros Hl Hz. unfold entry. rewrite Hz, Hl. destruct c; reflexivity.
Qed.

Lemma map_some_app {A B} (f : A -> option B) (a b : list A) :
  forall p, map f (a ++ b) = map Some p ->
  exists pa pb, p = (pa ++ pb)%list /\ map f a = map Some pa
                /\ map f b = map Some pb.
Proof.
  induction a as [|x a IH]; intros p H.
  - exists [], p. auto.
  - destruct p as [|y p]; [discriminate|].
    cbn in H. injection H as Hx H.
    destruct (IH p H) as (pa & pb & -> & Ha & Hb).
    exists (y :: pa), pb. cbn. rewrite Hx, Ha. auto.
Qed.

Lemma entries_after (c : Currency) (post : list string) :
  Forall (fun e => last e <> letter c) post ->
  forall p, map entry post = map Some p -> Forall (fun q => fst q <> c) p.
Proof.
  induction 1 as [|e post He _ IH]; intros p H.
  - destruct p; [constructor|discriminate].
  - destruct p as [|[k z] p]; [discriminate|].
    cbn in H. injection H as Hk H. constructor; [|now apply IH].
    cbn. intros ->. apply He. exact (entry_letter e c z Hk).
Qed.

(** ** Signs *)

Lemma digits_nonneg (s : string) :
  forall acc z, 0 <= acc -> digits acc s = Some z -> 0 <= z.
Proof.
  induction s as [|c r IH]; intros acc z Hacc; cbn [digits].
  - intros [= <-]. exact Hacc.
  - destruct (is_digit c) eqn:Hd; [|discriminate].
    apply IH.
    assert (0 <= digit_value c); [|lia].
    unfold is_digit in Hd. apply contains_In in Hd. cbn in Hd.
    repeat (destruct Hd as [<-|Hd]; [vm_compute; discriminate|]).
    contradiction.
Qed.

Lemma number_nonneg (s : string) (z : Z) : number s = Some z -> 0 <= z.
Proof.
  destruct s; [discriminate|]. cbn [number]. now apply digits_nonneg.
Qed.

(** A negative amount is written with a minus sign. *)
Lemma int_negative (x : string) (z : Z) :
  int x = Some z -> z < 0 -> contains "-" x = true.
Proof.
  destruct x as [|c r]; [discriminate|]. cbn [int contains].
  destruct (Ascii.eqb c "+") eqn:Ep.
  - intros H Hz. apply number_nonneg in H. lia.
  - destruct (Ascii.eqb c "-") eqn:Em.
    + apply Ascii.eqb_eq in Em. subst c. reflexivity.
    + intros H Hz. apply number_nonneg in H. lia.
Qed.

Lemma contains_drop_last (c : ascii) (x : string) :
  contains c (drop_last x) = true -> contains c x = true.
Proof.
  induction x as [|d r IH]; [discriminate|].
  destruct r as [|d' r']; [discriminate|].
  change (drop_last (String d (String d' r')))
    with (String d (drop_last (String d' r'))).
  cbn [contains] in *. rewrite !orb_true_iff. intros [H|H]; [now left|].
  right. apply orb_true_iff. now apply IH.
Qed.

Lemma contains_split (c : ascii) (s : string) :
  forall e, In e (split "," s) -> contains c e = true -> contains c s = true.
Proof.
  induction s as [|d r IH]; intros e He Hc.
  - destruct He as [<-|[]]. discriminate.
  - cbn [split] in He. cbn [contains].
    destruct (Ascii.eqb d ",").
    + destruct He as [<-|He]; [discriminate|].
      rewrite (IH e He Hc). apply orb_true_r.
    + destruct (split "," r) as [|p ps] eqn:Es.
      * now apply split_not_nil in Es.
      * destruct He as [<-|He].
        -- cbn [contains] in Hc. apply orb_true_iff in Hc as [->|Hc];
             [reflexivity|].
           rewrite (IH p (or_introl eq_refl) Hc). apply orb_true_r.
        -- rewrite (IH e (or_intror He) Hc). apply orb_true_r.
Qed.

(** ** The claims about [process_transaction] *)

(** C2, at a failing input.  The treasury (account 0) sends [2g,5s] to
    account 42, and both records get the same clock reading.  The second
    record is stored with receiver 0 and sender 0: the sender of the
    mirror is the sender of the transaction again, where the double entry
    asks for account 42. *)
Theorem mirror_record_repeats_sender :
  process_transaction dora "2020-05-01T10:00:00+00:00"
    "2020-05-01T10:00:00+00:00" (Some "2g,5s") (Some "Donation") 0 42 true
    empty_store
  = (mkStore
       [mkTransaction 1 "2020-05-01T10:00:00+00:00" 7 42 0 "Donation" true
          VNone (VInt 2) VNone (VInt 5) VNone;
        mkTransaction 2 "2020-05-01T10:00:00+00:00" 7 0 0 "Donation" true
          VNone (VInt (-2)) VNone (VInt (-5)) VNone]
       3,
     Sent (Added "Transaction added" 1)).
Proof. vm_compute. reflexivity. Qed.

(** C4 (as amended).  An amount string of the grammar in which a
    denomination letter occurs twice is not rejected: the command reports
    the new transaction and appends the primary record, and the second
    record when sender and receiver differ. *)
Theorem duplicate_denomination_is_stored
    (ctx : Context) (date1 date2 s d : string) (sender receiver : Z)
    (confirm : bool) (st : Store)
    (Hwf : wf st) (Hd : d <> "")
    (Hgrammar : Forall (fun e => entry_grammar e = true) (split "," s))
    (Hdup : ~ NoDup (map last (split "," s))) :
  exists (t1 : TransactionData) (rest : list TransactionData) (n : Z),
    process_transaction ctx date1 date2 (Some s) (Some d) sender receiver
      confirm st
    = (mkStore (rows st ++ t1 :: rest) n,
       Sent (Added (title confirm) (next_id st)))
    /\ _id t1 = next_id st
    /\ List.length rest = if sender =? receiver then 0%nat else 1%nat.
Proof.
  destruct (grammar_reads s Hgrammar) as (Hchars & Hs & parsed & Hparsed).
  rewrite (process_transaction_stores ctx date1 date2 s d sender receiver
             confirm st parsed Hwf Hd Hs Hchars Hparsed).
  unfold stored. destruct (sender =? receiver).
  - eexists _, [], _. repeat split.
    exact (header_id _ _ (header_write_entries parsed _)).
  - eexists _, [_], _. repeat split.
    exact (header_id _ _ (header_write_entries parsed _)).
Qed.

Lemma duplicate_denomination_is_stored_witness :
  exists (t1 : TransactionData) (rest : list TransactionData) (n : Z),
    process_transaction dora "d1" "d2" (Some "2g,2g") (Some "Donation") 0 42
      true empty_store
    = (mkStore (rows empty_store ++ t1 :: rest) n,
       Sent (Added (title true) (next_id empty_store)))
    /\ _id t1 = next_id empty_store
    /\ List.length rest = if 0 =? 42 then 0%nat else 1%nat.
Proof.
  apply (duplicate_denomination_is_stored dora "d1" "d2" "2g,2g" "Donation"
           0 42 true empty_store wf_empty).
  - discriminate.
  - repeat constructor.
  - cbn. intros H. inversion H as [|? ? Hin _]; subst. apply Hin. now left.
Defined.

(** C4, counterexample.  [2g,2g] is accepted: two records are stored and
    the command reports the new transaction. *)
Lemma duplicate_denomination_not_rejected :
  let r := process_transaction dora "d1" "d2" (Some "2g,2g")
             (Some "Donation") 0 42 true empty_store in
  snd r = Sent (Added "Transaction added" 1)
  /\ List.length (rows (fst r)) = 2%nat.
Proof. vm_compute. split; reflexivity. Qed.

(** C8 (as amended).  When every entry of the amount string is of the
    grammar, the entries of one denomination overwrite each other: the
    call reports the new transaction, and if no later entry ends in the
    letter of an entry, the primary record holds the amount of this
    entry. *)
Theorem last_entry_of_a_denomination_wins
    (ctx : Context) (date1 date2 s d : string) (sender receiver : Z)
    (confirm : bool) (st : Store)
    (pre post : list string) (e : string) (c : Currency) (z : Z)
    (Hwf : wf st) (Hd : d <> "")
    (Hgrammar : Forall (fun e => entry_grammar e = true) (split "," s))
    (Hsplit : split "," s = (pre ++ e :: post)%list)
    (Hletter : last e = letter c)
    (Hamount : int (drop_last e) = Some z)
    (Hlast : Forall (fun e' => last e' <> letter c) post) :
  let r := process_transaction ctx date1 date2 (Some s) (Some d) sender
             receiver confirm st in
  snd r = Sent (Added (title confirm) (next_id st))
  /\ exists t, row (fst r) (next_id st) = Some t
               /\ receiver_id t = receiver
               /\ getattr t c = VInt z.
Proof.
  destruct (grammar_reads s Hgrammar) as (Hchars & Hs & parsed & Hparsed).
  cbv zeta.
  rewrite (process_transaction_stores ctx date1 date2 s d sender receiver
             confirm st parsed Hwf Hd Hs Hchars Hparsed).
  split; [reflexivity|].
  rewrite Hsplit in Hparsed.
  destruct (map_some_app entry pre (e :: post) parsed Hparsed)
    as (ppre & pe & -> & _ & Hpe).
  destruct pe as [|q ppost]; [discriminate|].
  cbn [map] in Hpe. injection Hpe as Hq Hpost.
  rewrite (letter_entry e c z Hletter Hamount) in Hq.
  injection Hq as <-.
  pose proof (entries_after c post Hlast ppost Hpost) as Hafter.
  set (t1 := primary ctx date1 d sender receiver confirm
               (ppre ++ (c, z) :: ppost) (next_id st)).
  assert (Hh : header t1 =
               (next_id st, date1, author_id ctx, receiver, sender, d,
                confirm)).
  { unfold t1, primary. now rewrite header_write_entries. }
  exists t1. cbn [fst]. repeat split.
  - unfold stored. fold t1.
    destruct (sender =? receiver);
      apply row_at; try apply (wf_fresh st Hwf);
      unfold header in Hh; congruence.
  - unfold header in Hh. congruence.
  - unfold t1, primary. now apply getattr_write_last.
Qed.

Lemma last_entry_of_a_denomination_wins_witness :
  let r := process_transaction dora "d1" "d2" (Some "2g,5s,3g")
             (Some "Donation") 0 42 true empty_store in
  snd r = Sent (Added (title true) (next_id empty_store))
  /\ exists t, row (fst r) (next_id empty_store) = Some t
               /\ receiver_id t = 42
               /\ getattr t Gold = VInt 3.
Proof.
  apply (last_entry_of_a_denomination_wins dora "d1" "d2" "2g,5s,3g"
           "Donation" 0 42 true empty_store ["2g"; "5s"] [] "3g" Gold 3
           wf_empty).
  - discriminate.
  - repeat constructor.
  - reflexivity.
  - reflexivity.
  - reflexivity.
  - constructor.
Defined.

(** C8, counterexample.  In [2g,25,3g] the letter [g] ends two entries,
    but the loop stops at [25]: the last entry is never read and the
    stored record holds the amount of the first one. *)
Lemma entry_after_unreadable_entry_is_lost :
  let r := process_transaction dora "d1" "d2" (Some "2g,25,3g")
             (Some "Donation") 0 42 true empty_store in
  snd r = Sent (Text "Invalid currency detected:5")
  /\ exists t, row (fst r) 1 = Some t
               /\ receiver_id t = 42
               /\ getattr t Gold = VInt 2.
Proof.
  vm_compute. split; [reflexivity|]. eexists. repeat split.
Qed.

(** C5 (as amended).  [process_transaction] does not look at the sign of
    an amount: an amount string of the grammar with a negative amount goes
    through for either value of [confirm], and the records are stored with
    that value as their confirmed state.  Negative amounts are refused by
    the send command alone, which answers that only positive amounts can
    be sent and stores nothing as soon as the amount string holds a minus
    sign. *)
Theorem negative_amount_refused_by_send_only
    (UserData : option UserTable) (ctx : Context) (date1 date2 s d : string)
    (sender receiver : Z) (st : Store) (e : string) (z : Z)
    (Hwf : wf st) (Hd : d <> "")
    (Hgrammar : Forall (fun e => entry_grammar e = true) (split "," s))
    (He : In e (split "," s))
    (Hamount : int (drop_last e) = Some z)
    (Hneg : z < 0) :
  (forall confirm : bool,
     exists (t1 : TransactionData) (rest : list TransactionData) (n : Z),
       process_transaction ctx date1 date2 (Some s) (Some d) sender receiver
         confirm st
       = (mkStore (rows st ++ t1 :: rest) n,
          Sent (Added (title confirm) (next_id st)))
       /\ Forall (fun t => confirmed t = confirm) (t1 :: rest))
  /\ account_send_money UserData ctx receiver (Some s) (Some d) st
     = (st, Sent (Text "You can only send positive amounts"))
  /\ (forall (s' : string) (d' : option string) (receiver' : Z)
             (st' : Store),
        contains "-" s' = true ->
        account_send_money UserData ctx receiver' (Some s') d' st'
        = (st', Sent (Text "You can only send positive amounts"))).
Proof.
  destruct (grammar_reads s Hgrammar) as (Hchars & Hs & parsed & Hparsed).
  split; [|split].
  - intros confirm.
    rewrite (process_transaction_stores ctx date1 date2 s d sender receiver
               confirm st parsed Hwf Hd Hs Hchars Hparsed).
    unfold stored.
    set (t1 := primary ctx date1 d sender receiver confirm parsed
                 (next_id st)).
    assert (H1 : confirmed t1 = confirm).
    { unfold t1, primary.
      now rewrite (header_confirmed _ _ (header_write_entries parsed _)). }
    destruct (sender =? receiver).
    + exists t1, [], (next_id st + 1). split; [reflexivity|].
      repeat constructor. exact H1.
    + eexists t1, [_], _. split; [reflexivity|].
      repeat constructor; [exact H1|].
      unfold second.
      now rewrite (header_confirmed _ _ (header_mirror CURRENCIES t1 _)).
  - unfold account_send_money.
    rewrite (contains_split "-" s e He
               (contains_drop_last "-" e (int_negative _ z Hamount Hneg))).
    reflexivity.
  - intros s' d' receiver' st' Hminus. unfold account_send_money.
    now rewrite Hminus.
Qed.

Lemma negative_amount_refused_by_send_only_witness :
  (forall confirm : bool,
     exists (t1 : TransactionData) (rest : list TransactionData) (n : Z),
       process_transaction dora "d1" "d2" (Some "-2g,-5s")
         (Some "Bought food for the kitchen") 7 7 confirm empty_store
       = (mkStore (rows empty_store ++ t1 :: rest) n,
          Sent (Added (title confirm) (next_id empty_store)))
       /\ Forall (fun t => confirmed t = confirm) (t1 :: rest))
  /\ account_send_money (Some [7; 8]) dora 7 (Some "-2g,-5s")
       (Some "Bought food for the kitchen") empty_store
     = (empty_store, Sent (Text "You can only send positive amounts"))
  /\ (forall (s' : string) (d' : option string) (receiver' : Z)
             (st' : Store),
        contains "-" s' = true ->
        account_send_money (Some [7; 8]) dora receiver' (Some s') d' st'
        = (st', Sent (Text "You can only send positive amounts"))).
Proof.
  apply (negative_amount_refused_by_send_only (Some [7; 8]) dora "d1" "d2"
           "-2g,-5s" "Bought food for the kitchen" 7 7 empty_store
           "-5s" (-5) wf_empty).
  - discriminate.
  - repeat constructor.
  - right. left. reflexivity.
  - reflexivity.
  - reflexivity.
Defined.

(** C5, counterexample.  With [confirm] false, as for an account holder,
    [-2g,-5s] is stored (pending) and reported as a new transaction. *)
Lemma unprivileged_negative_amount_is_stored :
  process_transaction dora "d1" "d2" (Some "-2g,-5s")
    (Some "Bought food for the kitchen") 7 7 false empty_store
  = (mkStore
       [mkTransaction 1 "d1" 7 7 7 "Bought food for the kitchen" false
          VNone (VInt (-2)) VNone (VInt (-5)) VNone]
       2,
     Sent (Added "Transaction added (pending confirmation)" 1)).
Proof. vm_compute. reflexivity. Qed.

(** ** Sending to an account that does not exist *)

(** C10.  When the receiver has no row in the user table, the send command
    leaves the transaction table as it was and does not report a new
    transaction; when the amount string holds no minus sign and the user
    table can be read, it answers that the user has no account. *)
Theorem send_to_unknown_receiver_stores_nothing
    (UserData : option UserTable) (ctx : Context) (receiver : Z)
    (transaction_string description : option string) (st : Store)
    (Hunknown : forall users, UserData = Some users ->
                              count receiver users = 0%nat) :
  let r := account_send_money UserData ctx receiver transaction_string
             description st in
  fst r = st
  /\ (forall ttl tid, snd r <> Sent (Added ttl tid))
  /\ (forall users s,
        UserData = Some users -> transaction_string = Some s ->
        contains "-" s = false ->
        snd r = Sent (Text "That user does not have an account")).
Proof.
  cbv zeta. unfold account_send_money.
  destruct transaction_string as [s|].
  - destruct (contains "-" s) eqn:Hc.
    + repeat split; try discriminate.
      intros users s' _ [= <-] H. congruence.
    + destruct UserData as [users|].
      * rewrite (Hunknown users eq_refl). cbn.
        repeat split; discriminate.
      * repeat split; discriminate.
  - repeat split; discriminate.
Qed.

Lemma send_to_unknown_receiver_stores_nothing_witness :
  let r := account_send_money (Some [7; 8]) dora 42 (Some "2g")
             (Some "Thanks") empty_store in
  fst r = empty_store
  /\ (forall ttl tid, snd r <> Sent (Added ttl tid))
  /\ (forall users s,
        Some [7; 8] = Some users -> Some "2g" = Some s ->
        contains "-" s = false ->
        snd r = Sent (Text "That user does not have an account")).
Proof.
  apply (send_to_unknown_receiver_stores_nothing (Some [7; 8]) dora 42
           (Some "2g") (Some "Thanks") empty_store).
  intros users [= <-]. reflexivity.
Defined.

(** ** Balance *)

Lemma or_zero (v : value) : or v (VInt 0) = VInt (amount v).
Proof.
  destruct v as [|z]; [reflexivity|]. unfold or. cbn [truthy amount].
  destruct (z =? 0) eqn:E; [|reflexivity].
  apply Z.eqb_eq in E. now subst.
Qed.

Lemma coins_of_ext (f g : Currency -> Z) :
  (forall c, f c = g c) -> coins_of f = coins_of g.
Proof.
  intros H. unfold coins_of. apply map_ext. intros c. now rewrite H.
Qed.

Lemma dict_get_coins_of (f : Currency -> Z) (c : Currency) :
  dict_get (coins_of f) c = Some (VInt (f c)).
Proof. destruct c; reflexivity. Qed.

(** The inner loop adds the amounts of one transaction, [None] as zero. *)
Lemma add_transaction (t : TransactionData) (f : Currency -> Z) :
  fold_exn CURRENCIES
    (fun coins c => iadd coins c (or (getattr t c) (VInt 0)))
    (coins_of f)
  = inr (coins_of (fun c => f c + amount (getattr t c))).
Proof.
  unfold CURRENCIES at 1. cbn [fold_exn]. rewrite !or_zero. reflexivity.
Qed.

Lemma add_transactions (l : list TransactionData) :
  forall f : Currency -> Z,
    fold_exn l
      (fun coins transaction =>
         fold_exn CURRENCIES
           (fun coins c => iadd coins c (or (getattr transaction c) (VInt 0)))
           coins)
      (coins_of f)
    = inr (coins_of
             (fun c => f c + sum (map (fun t => amount (getattr t c)) l))).
Proof.
  induction l as [|t l IH]; intros f; cbn [fold_exn map sum fold_right].
  - f_equal. apply coins_of_ext. intros c. lia.
  - rewrite add_transaction, IH. f_equal. apply coins_of_ext.
    intros c. unfold sum. lia.
Qed.

(** The balance is the dictionary of the five totals. *)
Lemma get_balance_total (st : Store) (account : Z) :
  get_balance st account = inr (coins_of (total st account)).
Proof.
  unfold get_balance.
  change (map (fun c => (c, VInt 0)) CURRENCIES) with (coins_of (fun _ => 0)).
  rewrite add_transactions. f_equal. apply coins_of_ext. intros c.
  unfold total, TransactionDB.query_all. cbn [Z.add].
  f_equal. f_equal. apply filter_ext. intros t.
  destruct (confirmed t), (receiver_id t =? account); reflexivity.
Qed.

Lemma filter_confirmed (account : Z) (l : list TransactionData) :
  filter (fun t => confirmed t && (receiver_id t =? account))
         (filter confirmed l)
  = filter (fun t => confirmed t && (receiver_id t =? account)) l.
Proof.
  induction l as [|t l IH]; [reflexivity|]. cbn [filter].
  destruct (confirmed t) eqn:E; cbn [filter andb]; rewrite ?E; cbn [andb];
    now rewrite IH.
Qed.

(** C3.  For every table and account, [get_balance] returns a dictionary
    with the five currencies as keys, each mapped to the sum, from zero, of
    that currency's amounts over the rows that are confirmed and received
    by the account; the rows that are not confirmed can be dropped from the
    table without changing the result. *)
Theorem balance_sums_confirmed_received (st : Store) (account : Z) :
  exists coins : Coins,
    get_balance st account = inr coins
    /\ map fst coins = CURRENCIES
    /\ (forall c, dict_get coins c = Some (VInt (total st account c)))
    /\ get_balance (mkStore (filter confirmed (rows st)) (next_id st)) account
       = inr coins.
Proof.
  exists (coins_of (total st account)). repeat split.
  - apply get_balance_total.
  - intros c. apply dict_get_coins_of.
  - rewrite get_balance_total. f_equal. apply coins_of_ext. intros c.
    unfold total. cbn [rows]. now rewrite filter_confirmed.
Qed.

Lemma total_append (st : Store) (t : TransactionData) (n account : Z)
    (c : Currency) :
  total (mkStore (rows st ++ [t]) n) account c
  = total st account c
    + (if confirmed t && (receiver_id t =? account)
       then amount (getattr t c) else 0).
Proof.
  unfold total. cbn [rows]. rewrite filter_app, map_app. cbn [filter].
  unfold sum. rewrite fold_right_app.
  destruct (confirmed t && (receiver_id t =? account)); cbn [map fold_right].
  - induction (map _ (filter _ (rows st))) as [|x l IH]; cbn [fold_right];
      lia.
  - lia.
Qed.

(** C9.  [get_balance] returns a dictionary for every table.  A record
    as [create_new] makes it, with the five amounts unset, changes no
    balance; and a record whose amount of one denomination is unset,
    whatever its other columns hold, leaves the balance of that
    denomination as it was: an unset amount counts as zero. *)
Theorem balance_never_fails (st : Store) (account : Z)
    (date : string) (user receiver sender : Z) (description : string)
    (confirm : bool) (t : TransactionData) (c : Currency) (n : Z) :
  exists coins coins' : Coins,
    get_balance st account = inr coins
    /\ get_balance
         (fst (TransactionDB.create_new st date user receiver sender
                 description confirm VNone VNone VNone VNone VNone))
         account
       = inr coins
    /\ get_balance (mkStore (rows st ++ [setattr t c VNone]) n) account
       = inr coins'
    /\ dict_get coins' c = dict_get coins c.
Proof.
  exists (coins_of (total st account)).
  exists (coins_of (total (mkStore (rows st ++ [setattr t c VNone]) n)
                      account)).
  repeat split.
  - apply get_balance_total.
  - rewrite get_balance_total. f_equal. apply coins_of_ext. intros k.
    unfold TransactionDB.create_new. cbn [fst]. rewrite total_append.
    cbn [confirmed receiver_id].
    destruct (confirm && (receiver =? account)); [|lia].
    destruct k; cbn; lia.
  - apply get_balance_total.
  - rewrite !dict_get_coins_of, total_append.
    rewrite getattr_setattr, Currency_eqb_refl. cbn [amount].
    destruct (_ && _); do 2 f_equal; lia.
Qed.

(** ** Confirmation *)

Lemma filter_no_key (k : Z) (l : list TransactionData) :
  ~ In k (map _id l) -> filter (fun u => _id u =? k) l = [].
Proof.
  induction l as [|u l IH]; cbn; [reflexivity|]. intros H.
  destruct (_id u =? k) eqn:E.
  - apply Z.eqb_eq in E. tauto.
  - apply IH. tauto.
Qed.

(** A key selects one row of a table whose keys are unique. *)
Lemma filter_key (l : list TransactionData) (t : TransactionData) :
  NoDup (map _id l) -> In t l -> filter (fun u => _id u =? _id t) l = [t].
Proof.
  induction l as [|u l IH]; cbn [map filter]; intros Hnd Hin; [contradiction|].
  inversion Hnd as [|? ? Hu Hl]; subst.
  destruct Hin as [->|Hin].
  - rewrite Z.eqb_refl. f_equal. now apply filter_no_key.
  - destruct (_id u =? _id t) eqn:E.
    + apply Z.eqb_eq in E. exfalso. apply Hu. rewrite E. now apply in_map.
    + now apply IH.
Qed.

Lemma set_confirmed_id (t : TransactionData) : _id (set_confirmed t) = _id t.
Proof. reflexivity. Qed.

Lemma update_keys (st : Store) (tid : Z) :
  map _id (rows (update st tid set_confirmed)) = map _id (rows st).
Proof.
  unfold update. cbn [rows]. rewrite map_map. apply map_ext.
  intros t. now destruct (_id t =? tid).
Qed.

Lemma update_twice (st : Store) (tid : Z) :
  update (update st tid set_confirmed) tid set_confirmed
  = update st tid set_confirmed.
Proof.
  unfold update. cbn [rows next_id]. f_equal. rewrite map_map.
  apply map_ext. intros t. destruct (_id t =? tid) eqn:E.
  - cbn [set_confirmed _id]. now rewrite E.
  - now rewrite E.
Qed.

Lemma find_filter (p : TransactionData -> bool) (l : list TransactionData)
    (t : TransactionData) :
  filter p l = [t] -> find p l = Some t.
Proof.
  induction l as [|u l IH]; cbn; [discriminate|].
  destruct (p u); [now intros [= ->]|exact IH].
Qed.

(** C7.  For a key that is in the table, confirming once sends the
    confirmation and sets the flag; confirming again sends the same
    message, raises nothing and leaves the table as the first call left
    it. *)
Theorem confirm_twice_is_confirm_once (st : Store) (transaction_id : Z)
    (Hwf : wf st) (Hin : In transaction_id (map _id (rows st))) :
  exists (st1 : Store) (m : Message),
    bank_confirm_transaction transaction_id st = (st1, Sent m)
    /\ bank_confirm_transaction transaction_id st1 = (st1, Sent m)
    /\ exists t, row st1 transaction_id = Some t /\ confirmed t = true.
Proof.
  destruct Hwf as [Hnd _].
  apply in_map_iff in Hin as (t & <- & Hin).
  set (st1 := update st (_id t) set_confirmed).
  assert (Hin1 : In (set_confirmed t) (rows st1)).
  { unfold st1, update. cbn [rows]. apply in_map_iff. exists t.
    split; [|exact Hin]. now rewrite Z.eqb_refl. }
  assert (Hnd1 : NoDup (map _id (rows st1))).
  { unfold st1. now rewrite update_keys. }
  pose proof (filter_key (rows st) t Hnd Hin) as H0.
  pose proof (filter_key (rows st1) (set_confirmed t) Hnd1 Hin1) as H1.
  rewrite set_confirmed_id in H1.
  exists st1, (Text ("Transaction " ++ repr (_id t) ++ " confirmed")).
  unfold bank_confirm_transaction. rewrite H0, H1. cbn [one].
  rewrite set_confirmed_id. unfold st1 at 2. rewrite update_twice.
  repeat split.
  exists (set_confirmed t). split; [|reflexivity].
  unfold row. now apply find_filter.
Qed.

Lemma confirm_twice_is_confirm_once_witness :
  exists (st1 : Store) (m : Message),
    bank_confirm_transaction 1
      (mkStore [mkTransaction 1 "d1" 7 7 7 "Pay for last mission" false
                  VNone (VInt 2) VNone VNone VNone] 2)
    = (st1, Sent m)
    /\ bank_confirm_transaction 1 st1 = (st1, Sent m)
    /\ exists t, row st1 1 = Some t /\ confirmed t = true.
Proof.
  apply (confirm_twice_is_confirm_once
           (mkStore [mkTransaction 1 "d1" 7 7 7 "Pay for last mission" false
                       VNone (VInt 2) VNone VNone VNone] 2) 1).
  - split; cbn.
    + repeat constructor. intros [].
    + repeat constructor.
  - cbn. now left.
Defined.

(** ** History *)

Lemma insert_desc_In (t u : TransactionData) (l : list TransactionData) :
  In u (insert_desc t l) <-> u = t \/ In u l.
Proof.
  induction l as [|v l IH]; cbn.
  - intuition congruence.
  - destruct (_id v <=? _id t); cbn; rewrite ?IH; intuition congruence.
Qed.

Lemma order_by_id_desc_In (u : TransactionData) (l : list TransactionData) :
  In u (order_by_id_desc l) <-> In u l.
Proof.
  induction l as [|t l IH]; cbn; [tauto|].
  rewrite insert_desc_In, IH. intuition congruence.
Qed.

Lemma insert_desc_length (t : TransactionData) (l : list TransactionData) :
  List.length (insert_desc t l) = S (List.length l).
Proof.
  induction l as [|v l IH]; cbn; [reflexivity|].
  destruct (_id v <=? _id t); cbn; now rewrite ?IH.
Qed.

Lemma order_by_id_desc_length (l : list TransactionData) :
  List.length (order_by_id_desc l) = List.length l.
Proof.
  induction l as [|t l IH]; cbn; [reflexivity|].
  now rewrite insert_desc_length, IH.
Qed.

Lemma insert_desc_sorted (t : TransactionData) (l : list TransactionData) :
  StronglySorted (fun a b => _id b <= _id a) l ->
  StronglySorted (fun a b => _id b <= _id a) (insert_desc t l).
Proof.
  induction 1 as [|v l Hl IH Hv]; cbn.
  - repeat constructor.
  - destruct (_id v <=? _id t) eqn:E.
    + apply Z.leb_le in E. constructor; [now constructor|].
      constructor; [exact E|].
      eapply Forall_impl; [|exact Hv]. cbn. intros b Hb. lia.
    + apply Z.leb_gt in E. constructor; [exact IH|].
      apply Forall_forall. intros b Hb. apply insert_desc_In in Hb.
      destruct Hb as [->|Hb]; [lia|].
      now apply (proj1 (Forall_forall _ _) Hv).
Qed.

(** The ordering puts the largest key, the newest record, first. *)
Lemma order_by_id_desc_sorted (l : list TransactionData) :
  StronglySorted (fun a b => _id b <= _id a) (order_by_id_desc l).
Proof.
  induction l as [|t l IH]; cbn; [constructor|].
  now apply insert_desc_sorted.
Qed.

Lemma sorted_firstn {A} (R : A -> A -> Prop) (n : nat) (l : list A) :
  StronglySorted R l -> StronglySorted R (firstn n l).
Proof.
  intros H. revert n. induction H as [|a l Hl IH Ha]; intros [|n]; cbn;
    try constructor.
  - apply IH.
  - apply Forall_forall. intros b Hb.
    apply (proj1 (Forall_forall _ _) Ha).
    rewrite <- (firstn_skipn n l). apply in_or_app. now left.
Qed.

Lemma sorted_skipn {A} (R : A -> A -> Prop) (n : nat) (l : list A) :
  StronglySorted R l -> StronglySorted R (skipn n l).
Proof.
  intros H. revert n. induction H as [|a l Hl IH Ha]; intros [|n]; cbn;
    try constructor; auto.
Qed.

Lemma sorted_snoc {A} (R : A -> A -> Prop) (l : list A) (x : A) :
  StronglySorted R l -> Forall (fun y => R y x) l ->
  StronglySorted R (l ++ [x]).
Proof.
  induction 1 as [|a l Hl IH Ha]; intros Hx; cbn.
  - repeat constructor.
  - inversion Hx; subst. constructor; [now apply IH|].
    apply Forall_app. split; [exact Ha|]. now repeat constructor.
Qed.

Lemma sorted_rev {A} (R : A -> A -> Prop) (l : list A) :
  StronglySorted R l -> StronglySorted (fun a b => R b a) (rev l).
Proof.
  induction 1 as [|a l Hl IH Ha]; cbn; [constructor|].
  apply sorted_snoc; [exact IH|].
  apply Forall_forall. intros y Hy. apply in_rev in Hy.
  now apply (proj1 (Forall_forall _ _) Ha).
Qed.

Lemma skipn_In {A} (n : nat) (l : list A) (x : A) :
  In x (skipn n l) -> In x l.
Proof.
  intros H. rewrite <- (firstn_skipn n l). apply in_or_app. now right.
Qed.

Lemma firstn_In {A} (n : nat) (l : list A) (x : A) :
  In x (firstn n l) -> In x l.
Proof.
  intros H. rewrite <- (firstn_skipn n l). apply in_or_app. now left.
Qed.

(** The page that [print_log] shows, read backwards, is the slice of the
    newest-first listing. *)
Lemma print_log_rev (st : Store) (start num : nat) (account : Z) :
  rev (print_log st start num account)
  = firstn num (skipn start (newest_first st account)).
Proof.
  unfold print_log, slice, limit, newest_first, account_nr.
  rewrite rev_involutive, firstn_firstn, Nat.min_id.
  rewrite firstn_skipn_comm. now rewrite (Nat.add_comm start num).
Qed.

(** C6 (as amended).  For non-negative [start] and [num], [print_log]
    shows the records received by the account that stand at the positions
    [start], ..., [start + num - 1] of the newest-first listing: at most
    [num] of them, none when [start] is at or beyond the number of
    records of the account, and it shows them oldest first (by ascending
    key). *)
Theorem print_log_page (st : Store) (start num : nat) (account : Z) :
  let page := print_log st start num account in
  rev page = firstn num (skipn start (newest_first st account))
  /\ List.length page
     = Nat.min num
         (List.length (filter (fun t => receiver_id t =? account) (rows st))
          - start)
  /\ Forall (fun t => In t (rows st) /\ receiver_id t = account) page
  /\ StronglySorted (fun a b => _id a <= _id b) page.
Proof.
  cbv zeta. repeat split.
  - apply print_log_rev.
  - rewrite <- length_rev, print_log_rev.
    rewrite length_firstn, length_skipn. unfold newest_first.
    now rewrite order_by_id_desc_length.
  - apply Forall_forall. intros t Ht.
    apply (proj1 (in_rev _ _)) in Ht. rewrite print_log_rev in Ht.
    apply firstn_In, skipn_In in Ht. unfold newest_first in Ht.
    apply order_by_id_desc_In, filter_In in Ht as [Hin Hacc].
    apply Z.eqb_eq in Hacc. auto.
  - rewrite <- (rev_involutive (print_log st start num account)).
    rewrite print_log_rev.
    apply (sorted_rev (fun a b => _id b <= _id a)).
    apply sorted_firstn, sorted_skipn. unfold newest_first.
    apply order_by_id_desc_sorted.
Qed.

(** C6, counterexample.  With two records received by the treasury, the
    first page shows the older record (key 1) before the newer one
    (key 2). *)
Lemma print_log_shows_oldest_first :
  let st :=
    mkStore
      [mkTransaction 1 "d1" 7 0 0 "Donation from Dora" true
         VNone (VInt 2) VNone (VInt 5) VNone;
       mkTransaction 2 "d2" 7 0 0 "Bought food for the kitchen" true
         VNone (VInt (-2)) VNone (VInt (-5)) VNone]
      3 in
  map _id (print_log st 0 10 0) = [1; 2]
  /\ map _id (print_log st 0 10 0) <> [2; 1].
Proof. vm_compute. split; [reflexivity|discriminate]. Qed.

(** * Further properties of the bank cog *)

(** ** Every way [process_transaction] can end *)

(** One turn of the loop over the entries: a write to the new record, a
    [ValueError], or the report of a character that is no denomination
    letter. *)
Lemma entry_step_any (tid : Z) (e : string) (st : Store) :
  let turn :=
    (amount <- lift_opt ValueError (int (drop_last e)) ;;
     currency <- ret (last e) ;;
     when (negb (in_tuple currency CURRENCIES_SHORT))
       (send_return (Text ("Invalid currency detected:" ++ currency))) ;;
     i <- lift_opt ValueError (index currency CURRENCIES_SHORT) ;;
     currency <- lift_opt ValueError (nth_error CURRENCIES i) ;;
     set tid currency (VInt amount)) st in
  (exists c z, turn = (update st tid (fun t => setattr t c (VInt z)), inl tt))
  \/ turn = (st, inr (Raised ValueError))
  \/ exists x, turn = (st, inr (Sent (Text ("Invalid currency detected:"
                                            ++ x)))).
Proof.
  cbv zeta. unfold bind.
  destruct (int (drop_last e)) as [z|]; cbn [lift_opt ret raise]; [|auto].
  destruct (in_tuple (last e) CURRENCIES_SHORT);
    cbn [negb when send_return ret]; [|right; right; now exists (last e)].
  destruct (index (last e) CURRENCIES_SHORT) as [i|];
    cbn [lift_opt ret raise]; [|auto].
  destruct (nth_error CURRENCIES i) as [c|]; cbn [lift_opt ret raise];
    [|auto].
  left. now exists c, z.
Qed.

(** The loop over the entries, whatever the entries: it writes to the new
    record only, and stops with a [ValueError] or with the report of a
    character that is no denomination letter. *)
Lemma entry_loop_any (tid k : Z) (old : list TransactionData)
    (es : list string) :
  Forall (fun u => _id u <> tid) old ->
  forall t : TransactionData,
    _id t = tid ->
    exists (t' : TransactionData) (r : unit + Outcome),
      for_each es (fun coinstring =>
        amount <- lift_opt ValueError (int (drop_last coinstring)) ;;
        currency <- ret (last coinstring) ;;
        when (negb (in_tuple currency CURRENCIES_SHORT))
          (send_return (Text ("Invalid currency detected:" ++ currency))) ;;
        i <- lift_opt ValueError (index currency CURRENCIES_SHORT) ;;
        currency <- lift_opt ValueError (nth_error CURRENCIES i) ;;
        set tid currency (VInt amount)) (mkStore (old ++ [t]) k)
      = (mkStore (old ++ [t']) k, r)
      /\ header t' = header t
      /\ (r = inl tt \/ r = inr (Raised ValueError)
          \/ exists x, r = inr (Sent (Text ("Invalid currency detected:"
                                            ++ x)))).
Proof.
  intros Hold. induction es as [|e es IH]; intros t Ht.
  - exists t, (inl tt). auto.
  - cbn [for_each]. unfold bind at 1.
    destruct (entry_step_any tid e (mkStore (old ++ [t]) k))
      as [(c & z & ->)|[->|(x & ->)]].
    + rewrite (update_at old [] t k tid _ Hold (Forall_nil _) Ht).
      destruct (IH (setattr t c (VInt z))) as (t' & r & Hrun & Hh & Hr);
        [now rewrite setattr_id|].
      exists t', r. cbv beta iota. rewrite Hrun. repeat split; [|exact Hr].
      now rewrite Hh, header_setattr.
    + exists t, (inr (Raised ValueError)). auto.
    + exists t, (inr (Sent (Text ("Invalid currency detected:" ++ x)))).
      repeat split. right. right. now exists x.
Qed.

Lemma header_columns (t : TransactionData) (k : Z) (dt : string)
    (u rc s : Z) (d : string) (c : bool) :
  header t = (k, dt, u, rc, s, d, c) ->
  _id t = k /\ user_id t = u /\ receiver_id t = rc /\ sender_id t = s
  /\ description t = d /\ confirmed t = c.
Proof. unfold header. intros [= -> _ -> -> -> -> ->]. repeat split. Qed.

(** The shape of the table after [process_transaction], for every input:
    it appends at most two rows, which carry the columns of the call, and
    keeps the invariant. *)
Lemma process_transaction_shape
    (ctx : Context) (date1 date2 : string)
    (transaction_string desc : option string)
    (sender receiver : Z) (confirm : bool) (st : Store)
    (Hwf : wf st) :
  let r := process_transaction ctx date1 date2 transaction_string desc
             sender receiver confirm st in
  exists new : list TransactionData,
    rows (fst r) = (rows st ++ new)%list
    /\ wf (fst r)
    /\ Forall (fun t => user_id t = author_id ctx /\ sender_id t = sender
                        /\ description t = str desc
                        /\ confirmed t = confirm) new
    /\ match snd r with
       | Sent (Added ttl tid) =>
           ttl = title confirm /\ tid = next_id st
           /\ List.length new = if sender =? receiver then 1%nat else 2%nat
       | Sent (Text m) =>
           new = []
           \/ (List.length new = 1%nat
               /\ exists x, m = "Invalid currency detected:" ++ x)
       | Raised e => e = ValueError /\ List.length new = 1%nat
       end.
Proof.
  intros r.
  assert (Hr : r = process_transaction ctx date1 date2 transaction_string
                     desc sender receiver confirm st) by reflexivity.
  clearbody r. unfold process_transaction, run in Hr.
  unfold bind at 1 in Hr.
  destruct (falsy desc || falsy transaction_string); cbn [when] in Hr.
  { unfold send_return at 1 in Hr. cbv beta iota in Hr. subst r.
    cbn [fst snd]. exists []. rewrite app_nil_r.
    repeat split; auto; apply Hwf. }
  unfold ret at 1 in Hr. unfold bind at 1 in Hr. rewrite char_loop in Hr.
  destruct (find _ _); cbv beta iota in Hr.
  { subst r. cbn [fst snd]. exists []. rewrite app_nil_r.
    repeat split; auto; apply Hwf. }
  unfold bind at 1 in Hr.
  unfold create_new at 1, TransactionDB.create_new in Hr.
  cbn [rows next_id] in Hr.
  set (t0 := mkTransaction (next_id st) date1 (author_id ctx) receiver sender
               (str desc) confirm VNone VNone VNone VNone VNone) in Hr.
  unfold bind at 1 in Hr.
  destruct (entry_loop_any (next_id st) (next_id st + 1) (rows st)
              (split "," (str transaction_string)) (wf_fresh st Hwf) t0
              eq_refl) as (t1 & o & Hrun & Hh & Ho).
  rewrite Hrun in Hr. clear Hrun.
  destruct (header_columns t1 _ _ _ _ _ _ _ Hh)
    as (Hid & Hu & _ & Hs & Hd & Hc).
  pose proof (wf_append st t1 Hwf Hid) as Hwf1.
  assert (Hnew1 : Forall (fun t => user_id t = author_id ctx
                                   /\ sender_id t = sender
                                   /\ description t = str desc
                                   /\ confirmed t = confirm) [t1])
    by (repeat constructor; assumption).
  destruct Ho as [->|[->|(x & ->)]]; cbv beta iota in Hr.
  - unfold bind at 1 in Hr.
    destruct (sender =? receiver); cbn [negb when] in Hr.
    + unfold ret in Hr. subst r. cbn [fst snd].
      exists [t1]. repeat split; auto; apply Hwf1.
    + unfold bind at 1 in Hr.
      unfold create_new at 1, TransactionDB.create_new in Hr.
      cbn [rows next_id] in Hr.
      rewrite <- app_assoc in Hr. cbn [app] in Hr.
      set (t2 := mkTransaction (next_id st + 1) date2 (author_id ctx) sender
                   sender (str desc) confirm
                   VNone VNone VNone VNone VNone) in Hr.
      rewrite (mirror_loop (next_id st) (next_id st + 1)
                 (next_id st + 1 + 1) (rows st) t1 CURRENCIES
                 (wf_fresh st Hwf) (wf_fresh_succ st Hwf) Hid
                 ltac:(lia) t2 eq_refl) in Hr.
      unfold ret in Hr. subst r. cbn [fst snd].
      destruct (header_columns (mirror CURRENCIES t1 t2) _ _ _ _ _ _ _
                  (header_mirror CURRENCIES t1 t2))
        as (Hid2 & Hu2 & _ & Hs2 & Hd2 & Hc2).
      pose proof (wf_append _ _ Hwf1 Hid2) as Hwf2.
      cbn [rows next_id] in Hwf2. rewrite <- app_assoc in Hwf2.
      exists [t1; mirror CURRENCIES t1 t2].
      split; [reflexivity|]. split; [exact Hwf2|].
      split; [|repeat split]. repeat constructor; assumption.
  - subst r. cbn [fst snd]. exists [t1]. repeat split; auto; apply Hwf1.
  - subst r. cbn [fst snd]. exists [t1].
    split; [reflexivity|]. split; [exact Hwf1|]. split; [exact Hnew1|].
    right. split; [reflexivity|]. now exists x.
Qed.

(** X1.  On a table that satisfies the invariant and for every input,
    the part of [process_transaction] that works on the table (lines
    74-128) only appends: the rows that were there stay as they were, in
    place, and the invariant still holds.  The new rows carry the author,
    the sender, the description and the confirmed state of the call.  When
    the call gets as far as the report of the new transaction, it has
    added one row, or two when sender and receiver differ; an exception
    raised before the report is a [ValueError] and leaves exactly one new
    row; a text answer leaves none or, when it reports a currency, one.
    (Whether [format_transaction] then renders the report is not part of
    the statement.) *)
Theorem process_transaction_outcomes
    (ctx : Context) (date1 date2 : string)
    (transaction_string desc : option string)
    (sender receiver : Z) (confirm : bool) (st : Store)
    (Hwf : wf st) :
  let r := process_transaction ctx date1 date2 transaction_string desc
             sender receiver confirm st in
  exists new : list TransactionData,
    rows (fst r) = (rows st ++ new)%list
    /\ wf (fst r)
    /\ Forall (fun t => user_id t = author_id ctx /\ sender_id t = sender
                        /\ description t = str desc
                        /\ confirmed t = confirm) new
    /\ match snd r with
       | Sent (Added ttl tid) =>
           ttl = title confirm /\ tid = next_id st
           /\ List.length new = if sender =? receiver then 1%nat else 2%nat
       | Sent (Text m) =>
           new = []
           \/ (List.length new = 1%nat
               /\ exists x, m = "Invalid currency detected:" ++ x)
       | Raised e => e = ValueError /\ List.length new = 1%nat
       end.
Proof.
  exact (process_transaction_shape ctx date1 date2 transaction_string desc
           sender receiver confirm st Hwf).
Qed.

Lemma process_transaction_outcomes_witness :
  let r := process_transaction dora "d4" "d5" (Some "2g,5s") (Some "Donation")
             0 42 true ledger in
  snd r = Sent (Added "Transaction added" 4)
  /\ List.length (rows (fst r)) = 5%nat
  /\ exists new : list TransactionData,
    rows (fst r) = (rows ledger ++ new)%list
    /\ wf (fst r)
    /\ Forall (fun t => user_id t = author_id dora /\ sender_id t = 0
                        /\ description t = str (Some "Donation")
                        /\ confirmed t = true) new
    /\ match snd r with
       | Sent (Added ttl tid) =>
           ttl = title true /\ tid = next_id ledger
           /\ List.length new = if 0 =? 42 then 1%nat else 2%nat
       | Sent (Text m) =>
           new = []
           \/ (List.length new = 1%nat
               /\ exists x, m = "Invalid currency detected:" ++ x)
       | Raised e => e = ValueError /\ List.length new = 1%nat
       end.
Proof.
  split; [reflexivity|]. split; [reflexivity|].
  apply (process_transaction_outcomes dora "d4" "d5" (Some "2g,5s")
           (Some "Donation") 0 42 true ledger).
  split; cbn; repeat constructor; cbn; intuition lia.
Defined.

(** ** Transactions and balances *)

Lemma truthy_amount (v : value) : truthy v = false -> amount v = 0.
Proof.
  destruct v as [|z]; [reflexivity|]. cbn. intros H.
  apply negb_false_iff, Z.eqb_eq in H. exact H.
Qed.

(** The second record counts for the opposite of the primary record. *)
Lemma amount_second (ctx : Context) (date2 d : string) (sender : Z)
    (confirm : bool) (t1 : TransactionData) (n : Z) (c : Currency) :
  amount (getattr (second ctx date2 d sender confirm t1 n) c)
  = - amount (getattr t1 c).
Proof.
  destruct (second_columns ctx date2 d sender confirm t1 n) as [_ H].
  rewrite H. destruct (truthy (getattr t1 c)) eqn:E; cbn [amount].
  - lia.
  - rewrite (truthy_amount _ E). reflexivity.
Qed.

(** The balance of the table after a transaction that went through. *)
Lemma total_stored (ctx : Context) (date1 date2 d : string)
    (sender receiver : Z) (confirm : bool) (parsed : list (Currency * Z))
    (st : Store) (account : Z) (c : Currency) :
  total (stored ctx date1 date2 d sender receiver confirm parsed st) account c
  = total st account c
    + moved confirm sender receiver account
        (amount (getattr (primary ctx date1 d sender receiver confirm parsed
                            (next_id st)) c)).
Proof.
  unfold stored.
  set (t1 := primary ctx date1 d sender receiver confirm parsed (next_id st)).
  assert (Hh1 : header t1 = (next_id st, date1, author_id ctx, receiver,
                             sender, d, confirm)).
  { unfold t1, primary. now rewrite header_write_entries. }
  destruct (header_columns t1 _ _ _ _ _ _ _ Hh1)
    as (_ & _ & Hr1 & _ & _ & Hc1).
  unfold moved. destruct (sender =? receiver) eqn:E.
  - rewrite total_append, Hc1, Hr1. cbn [negb andb].
    destruct confirm; cbn [andb]; [|lia].
    destruct (receiver =? account); lia.
  - set (t2 := second ctx date2 d sender confirm t1 (next_id st)).
    destruct (second_columns ctx date2 d sender confirm t1 (next_id st))
      as [Hh2 _]. fold t2 in Hh2.
    destruct (header_columns t2 _ _ _ _ _ _ _ Hh2)
      as (_ & _ & Hr2 & _ & _ & Hc2).
    change (rows st ++ [t1; t2])%list with (rows st ++ [t1] ++ [t2])%list.
    rewrite app_assoc.
    change (total {| rows := (rows st ++ [t1]) ++ [t2];
                     next_id := next_id st + 1 + 1 |} account c)
      with (total (mkStore (rows (mkStore (rows st ++ [t1]) (next_id st + 1))
                            ++ [t2]) (next_id st + 1 + 1)) account c).
    rewrite !total_append, Hc1, Hr1, Hc2, Hr2.
    unfold t2. rewrite amount_second. cbn [negb andb].
    destruct confirm; cbn [andb]; [|lia].
    destruct (receiver =? account), (sender =? account); lia.
Qed.

(** X2.  A transaction that goes through moves each balance by the amounts
    of its primary record: once confirmed, the receiver gains them and,
    when the sender is another account, the sender loses them; every other
    balance, and every balance while the transaction is pending, stays as
    it was. *)
Theorem transaction_moves_balances
    (ctx : Context) (date1 date2 s d : string) (sender receiver : Z)
    (confirm : bool) (st : Store) (account : Z)
    (Hwf : wf st) (Hd : d <> "")
    (Hgrammar : Forall (fun e => entry_grammar e = true) (split "," s)) :
  let r := process_transaction ctx date1 date2 (Some s) (Some d) sender
             receiver confirm st in
  exists (t1 : TransactionData) (before after : Coins),
    row (fst r) (next_id st) = Some t1
    /\ get_balance st account = inr before
    /\ get_balance (fst r) account = inr after
    /\ forall c, exists x,
         dict_get before c = Some (VInt x)
         /\ dict_get after c
            = Some (VInt (x + moved confirm sender receiver account
                                (amount (getattr t1 c)))).
Proof.
  destruct (grammar_reads s Hgrammar) as (Hchars & Hs & parsed & Hparsed).
  cbv zeta.
  rewrite (process_transaction_stores ctx date1 date2 s d sender receiver
             confirm st parsed Hwf Hd Hs Hchars Hparsed).
  cbn [fst].
  set (t1 := primary ctx date1 d sender receiver confirm parsed (next_id st)).
  exists t1, (coins_of (total st account)).
  exists (coins_of (total (stored ctx date1 date2 d sender receiver confirm
                             parsed st) account)).
  repeat split.
  - assert (Hid : _id t1 = next_id st)
      by exact (header_id _ _ (header_write_entries parsed _)).
    unfold stored. fold t1.
    destruct (sender =? receiver);
      apply row_at; try apply (wf_fresh st Hwf); exact Hid.
  - apply get_balance_total.
  - apply get_balance_total.
  - intros c. exists (total st account c).
    rewrite !dict_get_coins_of, total_stored. auto.
Qed.

Lemma transaction_moves_balances_witness :
  let r := process_transaction dora "d1" "d2" (Some "2g,5s") (Some "Donation")
             0 42 true empty_store in
  exists (t1 : TransactionData) (before after : Coins),
    row (fst r) (next_id empty_store) = Some t1
    /\ get_balance empty_store 0 = inr before
    /\ get_balance (fst r) 0 = inr after
    /\ forall c, exists x,
         dict_get before c = Some (VInt x)
         /\ dict_get after c
            = Some (VInt (x + moved true 0 42 0 (amount (getattr t1 c)))).
Proof.
  apply (transaction_moves_balances dora "d1" "d2" "2g,5s" "Donation" 0 42
           true empty_store 0 wf_empty).
  - discriminate.
  - repeat constructor.
Defined.

(** What one row counts for in the balance of an account. *)
Lemma total_cons (t : TransactionData) (l : list TransactionData)
    (n m account : Z) (c : Currency) :
  total (mkStore (t :: l) n) account c
  = (if confirmed t && (receiver_id t =? account)
     then amount (getattr t c) else 0)
    + total (mkStore l m) account c.
Proof.
  unfold total. cbn [rows filter].
  destruct (confirmed t && (receiver_id t =? account)); reflexivity.
Qed.

Lemma total_unconfirmed_rows (st : Store) (new : list TransactionData)
    (n account : Z) (c : Currency) :
  Forall (fun t => confirmed t = false) new ->
  total (mkStore (rows st ++ new) n) account c = total st account c.
Proof.
  intros H. unfold total. cbn [rows]. rewrite filter_app.
  replace (filter _ new) with (@nil TransactionData).
  - now rewrite app_nil_r.
  - induction H as [|t l Ht _ IH]; [reflexivity|].
    cbn [filter]. now rewrite Ht.
Qed.

Lemma store_eta (st : Store) : mkStore (rows st) (next_id st) = st.
Proof. now destruct st. Qed.

Lemma pending_of_new (confirm : bool) (new : list TransactionData) :
  Forall (fun t => confirmed t = confirm) new ->
  filter (fun t => Bool.eqb (confirmed t) false) new
  = if confirm then [] else new.
Proof.
  induction 1 as [|t l Ht _ IH]; [now destruct confirm|].
  cbn [filter]. rewrite Ht, IH. now destruct confirm.
Qed.

(** X3.  A call of [process_transaction] with [confirm] false changes no
    balance of any account, whatever its input and however it ends: the
    rows it leaves in the table are all pending, and they are the rows by
    which the pending list grows.  With [confirm] true the pending list
    stays as it was. *)
Theorem unconfirmed_call_moves_nothing
    (ctx : Context) (date1 date2 : string)
    (transaction_string desc : option string)
    (sender receiver : Z) (confirm : bool) (st : Store) (account : Z)
    (Hwf : wf st) :
  let st' := fst (process_transaction ctx date1 date2 transaction_string
                    desc sender receiver confirm st) in
  exists new : list TransactionData,
    rows st' = (rows st ++ new)%list
    /\ print_pending st'
       = (print_pending st ++ if confirm then [] else new)%list
    /\ (confirm = false -> get_balance st' account = get_balance st account).
Proof.
  cbv zeta.
  destruct (process_transaction_shape ctx date1 date2 transaction_string desc
              sender receiver confirm st Hwf) as (new & Hrows & _ & Hnew & _).
  cbv zeta in Hrows.
  exists new. split; [exact Hrows|]. split.
  - unfold print_pending. rewrite Hrows, filter_app. f_equal.
    apply pending_of_new. eapply Forall_impl; [|exact Hnew].
    cbn. intros t H. apply H.
  - intros ->. rewrite !get_balance_total. f_equal.
    apply coins_of_ext. intros c.
    rewrite <- (store_eta (fst (process_transaction _ _ _ _ _ _ _ _ _))).
    rewrite Hrows. apply total_unconfirmed_rows.
    eapply Forall_impl; [|exact Hnew]. cbn. intros t H. apply H.
Qed.

Lemma unconfirmed_call_moves_nothing_witness :
  let st' := fst (process_transaction dora "d1" "d2" (Some "2g,5s")
                    (Some "Pay for last mission") 7 42 false empty_store) in
  exists new : list TransactionData,
    rows st' = (rows empty_store ++ new)%list
    /\ print_pending st'
       = (print_pending empty_store ++ if false then [] else new)%list
    /\ (false = false -> get_balance st' 42 = get_balance empty_store 42).
Proof.
  apply (unconfirmed_call_moves_nothing dora "d1" "d2" (Some "2g,5s")
           (Some "Pay for last mission") 7 42 false empty_store 42 wf_empty).
Defined.

(** ** Confirming and deleting *)

(** X4.  Confirming a key that is not in the table raises
    [NoResultFound]: no message is sent and the table is not touched. *)
Theorem confirm_unknown_key_raises (st : Store) (transaction_id : Z)
    (Habsent : ~ In transaction_id (map _id (rows st))) :
  bank_confirm_transaction transaction_id st = (st, Raised NoResultFound).
Proof.
  unfold bank_confirm_transaction.
  now rewrite (filter_no_key transaction_id (rows st) Habsent).
Qed.

Lemma confirm_unknown_key_raises_witness :
  bank_confirm_transaction 5 empty_store = (empty_store, Raised NoResultFound).
Proof.
  apply (confirm_unknown_key_raises empty_store 5). intros [].
Defined.

Lemma filter_keep_all (k : Z) (l : list TransactionData) :
  ~ In k (map _id l) -> filter (fun t => negb (_id t =? k)) l = l.
Proof.
  induction l as [|u l IH]; cbn; [reflexivity|]. intros H.
  destruct (_id u =? k) eqn:E.
  - apply Z.eqb_eq in E. tauto.
  - cbn. f_equal. apply IH. tauto.
Qed.

Lemma deleted_key_is_gone (k : Z) (l : list TransactionData) :
  ~ In k (map _id (filter (fun t => negb (_id t =? k)) l)).
Proof.
  intros H. apply in_map_iff in H as (t & Ht & Hin).
  apply filter_In in Hin as [_ Hk].
  apply negb_true_iff, Z.eqb_neq in Hk. contradiction.
Qed.

(** X5.  [bank_delete] always answers "Success".  It removes the rows of
    the given key and no other, keeps the order of the rest, and a second
    deletion of the same key changes nothing; on a key that is not in the
    table the table is left exactly as it was. *)
Theorem delete_removes_the_key (st : Store) (transaction_id : Z) :
  let st1 := fst (bank_delete transaction_id st) in
  snd (bank_delete transaction_id st) = Sent (Text "Success")
  /\ (forall t, In t (rows st1)
                <-> In t (rows st) /\ _id t <> transaction_id)
  /\ map _id (rows st1)
     = filter (fun k => negb (k =? transaction_id)) (map _id (rows st))
  /\ bank_delete transaction_id st1 = (st1, Sent (Text "Success"))
  /\ (~ In transaction_id (map _id (rows st)) -> st1 = st).
Proof.
  cbv zeta. unfold bank_delete. cbn [fst snd rows next_id].
  split; [reflexivity|]. split; [|split; [|split]].
  - intros t. rewrite filter_In, negb_true_iff, Z.eqb_neq. tauto.
  - induction (rows st) as [|u l IH]; [reflexivity|].
    cbn [filter map]. destruct (_id u =? transaction_id); cbn [negb map];
      now rewrite IH.
  - f_equal. f_equal. apply filter_keep_all, deleted_key_is_gone.
  - intros H. rewrite (filter_keep_all _ _ H). apply store_eta.
Qed.

(** X6.  Once a key has been deleted, confirming it raises
    [NoResultFound] and leaves the table as the deletion left it,
    whatever the table was. *)
Theorem confirm_after_delete_raises (st : Store) (transaction_id : Z) :
  bank_confirm_transaction transaction_id
    (fst (bank_delete transaction_id st))
  = (fst (bank_delete transaction_id st), Raised NoResultFound).
Proof.
  unfold bank_confirm_transaction, bank_delete. cbn [fst rows].
  now rewrite (filter_no_key _ _ (deleted_key_is_gone transaction_id _)).
Qed.

Lemma total_counts (st : Store) (account : Z) (c : Currency) :
  total st account c = sum (map (counts account c) (rows st)).
Proof.
  unfold total, sum. induction (rows st) as [|t l IH]; [reflexivity|].
  cbn [filter map]. unfold counts at 1.
  destruct (confirmed t && (receiver_id t =? account));
    cbn [map fold_right]; rewrite IH; reflexivity.
Qed.

Lemma row_In (st : Store) (tid : Z) (t : TransactionData) :
  row st tid = Some t -> In t (rows st) /\ _id t = tid.
Proof.
  unfold row. intros H. apply find_some in H as [Hin Hid].
  now apply Z.eqb_eq in Hid.
Qed.

(** A sum over a table with unique keys, after one row was rewritten. *)
Lemma sum_rewritten (F : TransactionData -> Z)
    (G : TransactionData -> TransactionData) (t : TransactionData)
    (l : list TransactionData) :
  NoDup (map _id l) -> In t l ->
  sum (map F (map (fun u => if _id u =? _id t then G u else u) l))
  = sum (map F l) - F t + F (G t).
Proof.
  induction l as [|u l IH]; intros Hnd Hin; [contradiction|].
  cbn [map] in Hnd. inversion Hnd as [|? ? Hu Hl]; subst.
  cbn [map sum fold_right]. destruct Hin as [->|Hin].
  - rewrite Z.eqb_refl.
    rewrite (map_unless (_id t) G l).
    + unfold sum. lia.
    + apply Forall_forall. intros v Hv Hk. apply Hu. rewrite <- Hk.
      now apply in_map.
  - destruct (_id u =? _id t) eqn:E.
    + apply Z.eqb_eq in E. exfalso. apply Hu. rewrite E. now apply in_map.
    + unfold sum in *. rewrite (IH Hl Hin). lia.
Qed.

(** A sum over a table with unique keys, after one row was removed. *)
Lemma sum_removed (F : TransactionData -> Z) (t : TransactionData)
    (l : list TransactionData) :
  NoDup (map _id l) -> In t l ->
  sum (map F (filter (fun u => negb (_id u =? _id t)) l))
  = sum (map F l) - F t.
Proof.
  induction l as [|u l IH]; intros Hnd Hin; [contradiction|].
  cbn [map] in Hnd. inversion Hnd as [|? ? Hu Hl]; subst.
  cbn [filter map sum fold_right]. destruct Hin as [->|Hin].
  - rewrite Z.eqb_refl. cbn [negb].
    rewrite (filter_keep_all (_id t) l Hu). unfold sum. lia.
  - destruct (_id u =? _id t) eqn:E.
    + apply Z.eqb_eq in E. exfalso. apply Hu. rewrite E. now apply in_map.
    + cbn [negb map sum fold_right]. unfold sum in *. rewrite (IH Hl Hin).
      lia.
Qed.

Lemma confirm_known_key (st : Store) (tid : Z) (t : TransactionData) :
  wf st -> row st tid = Some t ->
  bank_confirm_transaction tid st
  = (update st tid set_confirmed,
     Sent (Text ("Transaction " ++ repr tid ++ " confirmed"))).
Proof.
  intros [Hnd _] Hrow. destruct (row_In st tid t Hrow) as [Hin <-].
  unfold bank_confirm_transaction.
  now rewrite (filter_key (rows st) t Hnd Hin).
Qed.

(** X7.  Confirming a record adds its amounts to the balance of its
    receiver when the record was pending, and changes no other balance;
    confirming a record that was confirmed already changes none. *)
Theorem confirm_counts_the_record (st : Store) (transaction_id : Z)
    (t : TransactionData) (account : Z)
    (Hwf : wf st) (Hrow : row st transaction_id = Some t) :
  let st1 := fst (bank_confirm_transaction transaction_id st) in
  exists before after : Coins,
    get_balance st account = inr before
    /\ get_balance st1 account = inr after
    /\ forall c, exists x,
         dict_get before c = Some (VInt x)
         /\ dict_get after c
            = Some (VInt (x + if negb (confirmed t)
                                 && (receiver_id t =? account)
                              then amount (getattr t c) else 0)).
Proof.
  cbv zeta. rewrite (confirm_known_key st transaction_id t Hwf Hrow).
  cbn [fst].
  exists (coins_of (total st account)).
  exists (coins_of (total (update st transaction_id set_confirmed) account)).
  split; [apply get_balance_total|]. split; [apply get_balance_total|].
  intros c. exists (total st account c).
  rewrite !dict_get_coins_of. split; [reflexivity|]. do 2 f_equal.
  destruct (row_In st transaction_id t Hrow) as [Hin <-].
  rewrite !total_counts. unfold update. cbn [rows].
  rewrite (sum_rewritten (counts account c) set_confirmed t (rows st)
             (proj1 Hwf) Hin).
  unfold counts. cbn [set_confirmed confirmed receiver_id getattr].
  replace (getattr (set_confirmed t) c) with (getattr t c)
    by (now destruct c).
  destruct (confirmed t), (receiver_id t =? account); cbn [negb andb]; lia.
Qed.

Lemma confirm_counts_the_record_witness :
  let st := mkStore [mkTransaction 1 "d1" 7 42 7 "Pay for last mission" false
                       VNone (VInt 2) VNone VNone VNone] 2 in
  let t := mkTransaction 1 "d1" 7 42 7 "Pay for last mission" false
             VNone (VInt 2) VNone VNone VNone in
  let st1 := fst (bank_confirm_transaction 1 st) in
  exists before after : Coins,
    get_balance st 42 = inr before
    /\ get_balance st1 42 = inr after
    /\ forall c, exists x,
         dict_get before c = Some (VInt x)
         /\ dict_get after c
            = Some (VInt (x + if negb (confirmed t) && (receiver_id t =? 42)
                              then amount (getattr t c) else 0)).
Proof.
  apply (confirm_counts_the_record
           (mkStore [mkTransaction 1 "d1" 7 42 7 "Pay for last mission" false
                       VNone (VInt 2) VNone VNone VNone] 2) 1
           (mkTransaction 1 "d1" 7 42 7 "Pay for last mission" false
              VNone (VInt 2) VNone VNone VNone) 42).
  - split; cbn.
    + repeat constructor. intros [].
    + repeat constructor.
  - reflexivity.
Defined.

(** X8.  On a table with unique keys, confirming takes the record of the
    given key, and no other record, off the list of pending
    transactions. *)
Theorem confirm_leaves_pending_list (st : Store) (transaction_id : Z)
    (Hwf : wf st) :
  print_pending (fst (bank_confirm_transaction transaction_id st))
  = filter (fun t => negb (_id t =? transaction_id)) (print_pending st).
Proof.
  destruct (row st transaction_id) as [t|] eqn:Hrow.
  - rewrite (confirm_known_key st transaction_id t Hwf Hrow). cbn [fst].
    unfold print_pending, update. cbn [rows].
    induction (rows st) as [|u l IH]; [reflexivity|].
    cbn [map filter]. destruct (_id u =? transaction_id) eqn:E.
    + cbn [set_confirmed confirmed Bool.eqb]. rewrite IH.
      destruct (Bool.eqb (confirmed u) false); [|reflexivity].
      cbn [filter]. now rewrite E.
    + rewrite IH. destruct (Bool.eqb (confirmed u) false); [|reflexivity].
      cbn [filter]. now rewrite E.
  - assert (Habs : ~ In transaction_id (map _id (rows st))).
    { intros H. apply in_map_iff in H as (u & Hu & Hin).
      unfold row in Hrow.
      pose proof (find_none _ _ Hrow u Hin) as Hf. cbn in Hf.
      apply Z.eqb_neq in Hf. contradiction. }
    unfold bank_confirm_transaction.
    rewrite (filter_no_key _ _ Habs). cbn [one fst].
    unfold print_pending. symmetry. apply filter_keep_all.
    intros H. apply Habs. apply in_map_iff in H as (u & Hu & Hin).
    apply filter_In in Hin as [Hin _]. apply in_map_iff. now exists u.
Qed.

Lemma confirm_leaves_pending_list_witness :
  print_pending ledger = [payment; payment_second]
  /\ filter (fun t => negb (_id t =? 1)) (print_pending ledger)
     = [payment_second]
  /\ print_pending (fst (bank_confirm_transaction 1 ledger))
     = filter (fun t => negb (_id t =? 1)) (print_pending ledger).
Proof.
  split; [reflexivity|]. split; [reflexivity|].
  apply (confirm_leaves_pending_list ledger 1).
  split; cbn; repeat constructor; cbn; intuition lia.
Defined.

(** X9.  Deleting a record takes its amounts off the balance of its
    receiver when the record was confirmed, and changes no other
    balance: the other record of a pair keeps counting. *)
Theorem delete_uncounts_the_record (st : Store) (transaction_id : Z)
    (t : TransactionData) (account : Z)
    (Hwf : wf st) (Hrow : row st transaction_id = Some t) :
  let st1 := fst (bank_delete transaction_id st) in
  exists before after : Coins,
    get_balance st account = inr before
    /\ get_balance st1 account = inr after
    /\ forall c, exists x,
         dict_get before c = Some (VInt x)
         /\ dict_get after c
            = Some (VInt (x - if confirmed t && (receiver_id t =? account)
                              then amount (getattr t c) else 0)).
Proof.
  cbv zeta. unfold bank_delete. cbn [fst].
  exists (coins_of (total st account)). eexists.
  split; [apply get_balance_total|]. split; [apply get_balance_total|].
  intros c. exists (total st account c).
  rewrite !dict_get_coins_of. split; [reflexivity|]. do 2 f_equal.
  destruct (row_In st transaction_id t Hrow) as [Hin <-].
  rewrite !total_counts. cbn [rows].
  now rewrite (sum_removed (counts account c) t (rows st) (proj1 Hwf) Hin).
Qed.

Lemma delete_uncounts_the_record_witness :
  let st := mkStore [mkTransaction 1 "d1" 7 42 0 "Donation" true
                       VNone (VInt 2) VNone VNone VNone] 2 in
  let t := mkTransaction 1 "d1" 7 42 0 "Donation" true
             VNone (VInt 2) VNone VNone VNone in
  let st1 := fst (bank_delete 1 st) in
  exists before after : Coins,
    get_balance st 42 = inr before
    /\ get_balance st1 42 = inr after
    /\ forall c, exists x,
         dict_get before c = Some (VInt x)
         /\ dict_get after c
            = Some (VInt (x - if confirmed t && (receiver_id t =? 42)
                              then amount (getattr t c) else 0)).
Proof.
  apply (delete_uncounts_the_record
           (mkStore [mkTransaction 1 "d1" 7 42 0 "Donation" true
                       VNone (VInt 2) VNone VNone VNone] 2) 1
           (mkTransaction 1 "d1" 7 42 0 "Donation" true
              VNone (VInt 2) VNone VNone VNone) 42).
  - split; cbn.
    + repeat constructor. intros [].
    + repeat constructor.
  - reflexivity.
Defined.

Lemma NoDup_keys_filter (p : TransactionData -> bool)
    (l : list TransactionData) :
  NoDup (map _id l) -> NoDup (map _id (filter p l)).
Proof.
  induction l as [|u l IH]; cbn [map filter]; intros H; [constructor|].
  inversion H as [|? ? Hu Hl]; subst.
  destruct (p u); [|now apply IH]. cbn [map]. constructor; [|now apply IH].
  intros Hin. apply Hu. apply in_map_iff in Hin as (v & Hv & Hin).
  apply filter_In in Hin as [Hin _]. apply in_map_iff. now exists v.
Qed.

(** X10.  Confirming and deleting keep the invariant of the table: the
    keys stay unique and below the next key, whether the command goes
    through or raises. *)
Theorem confirm_and_delete_keep_invariant (st : Store) (transaction_id : Z)
    (Hwf : wf st) :
  wf (fst (bank_confirm_transaction transaction_id st))
  /\ wf (fst (bank_delete transaction_id st)).
Proof.
  split.
  - unfold bank_confirm_transaction.
    destruct (one _) as [e|t]; cbn [fst]; [exact Hwf|].
    apply wf_update; [apply set_confirmed_id|exact Hwf].
  - destruct Hwf as [Hnd Hlt]. unfold bank_delete. cbn [fst].
    split; cbn [rows next_id].
    + now apply NoDup_keys_filter.
    + apply Forall_forall. intros t Ht. apply filter_In in Ht as [Ht _].
      exact (proj1 (Forall_forall _ _) Hlt t Ht).
Qed.

Lemma confirm_and_delete_keep_invariant_witness :
  rows (fst (bank_confirm_transaction 1 ledger))
  = [set_confirmed payment; payment_second; donation]
  /\ rows (fst (bank_delete 1 ledger)) = [payment_second; donation]
  /\ wf (fst (bank_confirm_transaction 1 ledger))
  /\ wf (fst (bank_delete 1 ledger)).
Proof.
  split; [reflexivity|]. split; [reflexivity|].
  apply (confirm_and_delete_keep_invariant ledger 1).
  split; cbn; repeat constructor; cbn; intuition lia.
Defined.

(** ** The transaction log *)

Lemma print_log_eq (st : Store) (start num : nat) (account : Z) :
  print_log st start num account
  = rev (firstn num (skipn start (newest_first st account))).
Proof.
  rewrite <- print_log_rev. symmetry. apply rev_involutive.
Qed.

Lemma firstn_plus {A} (n m : nat) (l : list A) :
  firstn (n + m) l = (firstn n l ++ firstn m (skipn n l))%list.
Proof.
  revert l. induction n as [|n IH]; intros l; [reflexivity|].
  destruct l as [|x l]; cbn.
  - now destruct m.
  - now rewrite IH.
Qed.

(** X11.  Pages of the log join: the page of [num'] records that starts
    after the first [start + num] matches, followed by the page of [num]
    records that starts after the first [start], is the page of
    [num + num'] records that starts after the first [start].  No record
    is shown twice or left out between two consecutive pages. *)
Theorem print_log_pages_join (st : Store) (start num num' : nat)
    (account : Z) :
  (print_log st (start + num) num' account
   ++ print_log st start num account)%list
  = print_log st start (num + num') account.
Proof.
  rewrite !print_log_eq, <- rev_app_distr. f_equal.
  rewrite firstn_plus, skipn_skipn. now rewrite (Nat.add_comm num start).
Qed.

Lemma insert_desc_front (u t : TransactionData) (l : list TransactionData) :
  _id u < _id t -> insert_desc u (t :: l) = t :: insert_desc u l.
Proof.
  intros H. cbn [insert_desc].
  destruct (_id t <=? _id u) eqn:E; [|reflexivity].
  apply Z.leb_le in E. lia.
Qed.

(** The record with the largest key comes first in the ordering. *)
Lemma order_by_id_desc_snoc (t : TransactionData)
    (l : list TransactionData) :
  Forall (fun u => _id u < _id t) l ->
  order_by_id_desc (l ++ [t]) = t :: order_by_id_desc l.
Proof.
  induction 1 as [|u l Hu _ IH]; [reflexivity|].
  cbn [app order_by_id_desc]. rewrite IH. now apply insert_desc_front.
Qed.

(** X12.  After a transaction that went through, the log of the receiver
    ends with the new primary record: its page of [k + 1] records from
    the start is the page of [k] records of the table before, followed by
    that record. *)
Theorem new_record_is_shown_last
    (ctx : Context) (date1 date2 s d : string) (sender receiver : Z)
    (confirm : bool) (st : Store) (k : nat)
    (Hwf : wf st) (Hd : d <> "")
    (Hgrammar : Forall (fun e => entry_grammar e = true) (split "," s)) :
  let r := process_transaction ctx date1 date2 (Some s) (Some d) sender
             receiver confirm st in
  exists t1 : TransactionData,
    row (fst r) (next_id st) = Some t1
    /\ print_log (fst r) 0 (S k) receiver
       = (print_log st 0 k receiver ++ [t1])%list.
Proof.
  destruct (grammar_reads s Hgrammar) as (Hchars & Hs & parsed & Hparsed).
  cbv zeta.
  rewrite (process_transaction_stores ctx date1 date2 s d sender receiver
             confirm st parsed Hwf Hd Hs Hchars Hparsed).
  cbn [fst].
  set (t1 := primary ctx date1 d sender receiver confirm parsed (next_id st)).
  assert (Hh1 : header t1 = (next_id st, date1, author_id ctx, receiver,
                             sender, d, confirm)).
  { unfold t1, primary. now rewrite header_write_entries. }
  destruct (header_columns t1 _ _ _ _ _ _ _ Hh1)
    as (Hid & _ & Hr1 & _ & _ & _).
  exists t1. split.
  - unfold stored. fold t1.
    destruct (sender =? receiver);
      apply row_at; try apply (wf_fresh st Hwf); exact Hid.
  - assert (Hnew : newest_first
                     (stored ctx date1 date2 d sender receiver confirm
                        parsed st) receiver
                   = t1 :: newest_first st receiver).
    { unfold newest_first, stored. fold t1.
      assert (Hf : forall rest,
                 filter (fun t => receiver_id t =? receiver) rest = [] ->
                 order_by_id_desc
                   (filter (fun t => receiver_id t =? receiver)
                      (rows st ++ t1 :: rest))
                 = t1 :: order_by_id_desc
                           (filter (fun t => receiver_id t =? receiver)
                              (rows st))).
      { intros rest Hrest. rewrite filter_app. cbn [filter].
        rewrite Hr1, Z.eqb_refl, Hrest.
        apply order_by_id_desc_snoc.
        apply Forall_forall. intros u Hu.
        apply filter_In in Hu as [Hu _]. rewrite Hid.
        exact (proj1 (Forall_forall _ _) (proj2 Hwf) u Hu). }
      destruct (sender =? receiver) eqn:E; cbn [rows].
      - now apply Hf.
      - apply Hf. cbn [filter].
        destruct (second_columns ctx date2 d sender confirm t1 (next_id st))
          as [Hh2 _].
        destruct (header_columns _ _ _ _ _ _ _ _ Hh2)
          as (_ & _ & -> & _ & _ & _).
        now rewrite E. }
    rewrite !print_log_eq, Hnew. cbn [skipn firstn rev]. reflexivity.
Qed.

Lemma new_record_is_shown_last_witness :
  let r := process_transaction dora "d1" "d2" (Some "2g,5s") (Some "Donation")
             0 42 true empty_store in
  exists t1 : TransactionData,
    row (fst r) (next_id empty_store) = Some t1
    /\ print_log (fst r) 0 (S 9) 42
       = (print_log empty_store 0 9 42 ++ [t1])%list.
Proof.
  apply (new_record_is_shown_last dora "d1" "d2" "2g,5s" "Donation" 0 42
           true empty_store 9 wf_empty).
  - discriminate.
  - repeat constructor.
Defined.

(** ** Printing and reading amounts *)

Lemma digits_of_uint_acc (d : Decimal.uint) :
  forall p : positive,
    digits (Z.pos p) (NilEmpty.string_of_uint d)
    = Some (Z.pos (Pos.of_uint_acc d p)).
Proof.
  induction d; intros p; cbn [NilEmpty.string_of_uint digits Pos.of_uint_acc];
    [reflexivity|..];
    (replace (is_digit _) with true by reflexivity);
    match goal with
    | |- context [digit_value ?ch] =>
        let v := eval vm_compute in (digit_value ch) in
        change (digit_value ch) with v
    end;
    match goal with
    | |- digits ?a _ = Some (Z.pos (Pos.of_uint_acc _ ?q)) =>
        replace a with (Z.pos q) by lia; apply IHd
    end.
Qed.

Lemma digits_of_uint (d : Decimal.uint) :
  digits 0 (NilEmpty.string_of_uint d) = Some (Z.of_N (Pos.of_uint d)).
Proof.
  induction d; cbn [NilEmpty.string_of_uint digits Pos.of_uint];
    [reflexivity|..];
    (replace (is_digit _) with true by reflexivity);
    [exact IHd|..];
    match goal with
    | |- context [digit_value ?ch] =>
        let v := eval vm_compute in (digit_value ch) in
        change (digit_value ch) with v
    end;
    match goal with
    | |- digits ?a _ = Some (Z.of_N (N.pos (Pos.of_uint_acc _ ?q))) =>
        replace a with (Z.pos q) by lia;
        apply digits_of_uint_acc
    end.
Qed.

Lemma string_of_uint_digits (d : Decimal.uint) :
  forallb is_digit (chars (NilEmpty.string_of_uint d)) = true.
Proof. induction d; cbn; auto. Qed.

Lemma number_of_pos (p : positive) :
  number (NilEmpty.string_of_uint (Pos.to_uint p)) = Some (Z.pos p)
  /\ exists c r, NilEmpty.string_of_uint (Pos.to_uint p) = String c r
                 /\ is_digit c = true.
Proof.
  pose proof (digits_of_uint (Pos.to_uint p)) as H.
  rewrite DecimalPos.Unsigned.of_to in H. cbn [Z.of_N] in H.
  pose proof (string_of_uint_digits (Pos.to_uint p)) as Hd.
  destruct (NilEmpty.string_of_uint (Pos.to_uint p)) as [|c r].
  - discriminate.
  - split; [exact H|]. exists c, r. split; [reflexivity|].
    cbn in Hd. now apply andb_true_iff in Hd.
Qed.

(** Reading the decimal text of an integer gives the integer back. *)
Lemma int_repr (z : Z) : int (repr z) = Some z.
Proof.
  destruct z as [|p|p]; [reflexivity|..];
    destruct (number_of_pos p) as (Hn & c & r & Hs & Hc); cbn [repr].
  - rewrite Hs in *. cbn [int].
    pose proof (is_digit_not_sign c Hc) as Hns. unfold is_sign in Hns.
    apply orb_false_iff in Hns as [-> ->]. exact Hn.
  - change ("-" ++ NilEmpty.string_of_uint (Pos.to_uint p))
      with (String "-" (NilEmpty.string_of_uint (Pos.to_uint p))).
    cbn [int]. rewrite Hn. reflexivity.
Qed.

Lemma repr_chars (z : Z) :
  forallb (fun c => is_digit c || Ascii.eqb c "-") (chars (repr z)) = true.
Proof.
  assert (H : forall d, forallb (fun c => is_digit c || Ascii.eqb c "-")
                          (chars (NilEmpty.string_of_uint d)) = true)
    by (induction d; cbn; auto).
  destruct z as [|p|p]; [reflexivity|apply H|].
  cbn [repr]. change ("-" ++ ?s) with (String "-" s). cbn. apply H.
Qed.

Lemma drop_last_snoc (s : string) (c : ascii) :
  drop_last (s ++ String c "") = s.
Proof.
  induction s as [|d s IH]; [reflexivity|].
  cbn [append]. destruct s as [|d' s'].
  - reflexivity.
  - change (drop_last (String d (String d' s' ++ String c "")))
      with (String d (drop_last (String d' s' ++ String c ""))).
    now rewrite IH.
Qed.

Lemma last_snoc (s : string) (c : ascii) :
  last (s ++ String c "") = String c "".
Proof.
  induction s as [|d s IH]; [reflexivity|].
  cbn [append]. destruct s as [|d' s']; [reflexivity|].
  change (last (String d (String d' s' ++ String c "")))
    with (last (String d' s' ++ String c "")).
  exact IH.
Qed.

Lemma split_no_sep (s : string) :
  contains "," s = false -> split "," s = [s].
Proof.
  induction s as [|c r IH]; [reflexivity|].
  cbn [contains split]. intros H. apply orb_false_iff in H as [Hc Hr].
  rewrite Ascii.eqb_sym, Hc, (IH Hr). reflexivity.
Qed.

Lemma forallb_chars_app (P : ascii -> bool) (a b : string) :
  forallb P (chars (a ++ b)) = forallb P (chars a) && forallb P (chars b).
Proof.
  induction a as [|c a IH]; [reflexivity|].
  cbn [append]. change (chars (String c ?s)) with (c :: chars s).
  cbn [forallb]. now rewrite IH, andb_assoc.
Qed.

(** X13.  Every integer amount that [int] of the interpreter reads, that
    is every integer of at most 4300 digits, can be entered for every
    denomination, whatever its sign: the decimal text of the integer, as
    Python prints it, followed by the letter of a denomination, is an
    amount string that goes through, and the primary record holds that
    integer for that denomination and nothing for the others.  (The bound
    is the interpreter's, see [Py.int]; beyond it [int] raises.) *)
Theorem printed_amount_is_read_back
    (ctx : Context) (date1 date2 d : string) (sender receiver : Z)
    (confirm : bool) (st : Store) (z : Z) (c : Currency)
    (Hwf : wf st) (Hd : d <> "")
    (Hcap : (digit_count (repr z) <= int_max_str_digits)%nat) :
  let r := process_transaction ctx date1 date2 (Some (repr z ++ letter c))
             (Some d) sender receiver confirm st in
  snd r = Sent (Added (title confirm) (next_id st))
  /\ exists t1, row (fst r) (next_id st) = Some t1
                /\ forall c', getattr t1 c'
                              = if Currency_eqb c c' then VInt z else VNone.
Proof.
  assert (Hl : exists l, letter c = String l "" /\ valid_char l = true
                         /\ Ascii.eqb l "," = false)
    by (destruct c; eexists; repeat split).
  destruct Hl as (l & Hl & Hvl & Hcl).
  set (s := repr z ++ letter c).
  assert (Hall : forallb (fun a => valid_char a && negb (Ascii.eqb a ","))
                   (chars s) = true).
  { unfold s. rewrite forallb_chars_app, Hl. apply andb_true_iff. split.
    - pose proof (repr_chars z) as H. rewrite forallb_forall in *.
      intros a Ha. specialize (H a Ha).
      apply orb_true_iff in H as [H|H].
      + rewrite (is_digit_valid a H).
        unfold is_digit in H. apply contains_In in H. cbn in H.
        repeat (destruct H as [<-|H]; [reflexivity|]). contradiction.
      + apply Ascii.eqb_eq in H. now subst a.
    - cbn. now rewrite Hvl, Hcl. }
  assert (Hchars : find (fun a => negb (valid_char a)) (chars s) = None).
  { apply find_none_forallb. rewrite forallb_forall in *.
    intros a Ha. specialize (Hall a Ha). now apply andb_true_iff in Hall. }
  assert (Hsplit : split "," s = [s]).
  { apply split_no_sep. destruct (contains "," s) eqn:E; [|reflexivity].
    apply contains_In in E. rewrite forallb_forall in Hall.
    specialize (Hall _ E). now rewrite Ascii.eqb_refl, andb_false_r in Hall. }
  assert (Hentry : entry s = Some (c, z)).
  { apply letter_entry; unfold s; rewrite Hl.
    - rewrite last_snoc. reflexivity.
    - rewrite drop_last_snoc. apply int_repr. }
  assert (Hs : s <> "").
  { unfold s. rewrite Hl. destruct (repr z); discriminate. }
  cbv zeta.
  rewrite (process_transaction_stores ctx date1 date2 s d sender receiver
             confirm st [(c, z)] Hwf Hd Hs Hchars).
  2: { rewrite Hsplit. cbn [map]. now rewrite Hentry. }
  split; [reflexivity|]. cbn [fst].
  set (t1 := primary ctx date1 d sender receiver confirm [(c, z)]
               (next_id st)).
  exists t1. split.
  - unfold stored. fold t1.
    assert (Hid : _id t1 = next_id st)
      by exact (header_id _ _ (header_write_entries [(c, z)] _)).
    destruct (sender =? receiver);
      apply row_at; try apply (wf_fresh st Hwf); exact Hid.
  - intros c'. unfold t1, primary, write_entries. cbn [fold_left fst snd].
    rewrite getattr_setattr. now destruct c'.
Qed.

Lemma printed_amount_is_read_back_witness :
  let r := process_transaction dora "d1" "d2" (Some (repr (-12) ++ letter Gold))
             (Some "Bought food for the kitchen") 0 0 true empty_store in
  repr (-12) ++ letter Gold = "-12g"
  /\ digit_count (repr (-12)) = 2%nat
  /\ snd r = Sent (Added (title true) (next_id empty_store))
  /\ exists t1, row (fst r) (next_id empty_store) = Some t1
                /\ forall c', getattr t1 c'
                              = if Currency_eqb Gold c' then VInt (-12)
                                else VNone.
Proof.
  split; [reflexivity|]. split; [reflexivity|].
  apply (printed_amount_is_read_back dora "d1" "d2"
           "Bought food for the kitchen" 0 0 true empty_store (-12) Gold
           wf_empty).
  - discriminate.
  - apply Nat.leb_le. reflexivity.
Defined.

(** ** A transaction that stops half way *)

Lemma in_tuple_short (x : string) :
  in_tuple x CURRENCIES_SHORT = true ->
  exists i c, index x CURRENCIES_SHORT = Some i
              /\ nth_error CURRENCIES i = Some c.
Proof.
  unfold in_tuple. intros H. apply existsb_exists in H as (y & Hy & Hxy).
  apply String.eqb_eq in Hxy. subst y. cbn in Hy.
  repeat (destruct Hy as [<-|Hy]; [eexists _, _; split; reflexivity|]).
  contradiction.
Qed.

Lemma entry_step_stops (tid : Z) (e : string) (st : Store) :
  entry e = None ->
  (amount <- lift_opt ValueError (int (drop_last e)) ;;
   currency <- ret (last e) ;;
   when (negb (in_tuple currency CURRENCIES_SHORT))
     (send_return (Text ("Invalid currency detected:" ++ currency))) ;;
   i <- lift_opt ValueError (index currency CURRENCIES_SHORT) ;;
   currency <- lift_opt ValueError (nth_error CURRENCIES i) ;;
   set tid currency (VInt amount)) st
  = (st, inr (stops_with e)).
Proof.
  intros He. unfold bind, stops_with.
  destruct (int (drop_last e)) as [z|] eqn:Ez; cbn [lift_opt ret raise];
    [|reflexivity].
  destruct (in_tuple (last e) CURRENCIES_SHORT) eqn:Et;
    cbn [negb when send_return ret]; [|reflexivity].
  destruct (in_tuple_short _ Et) as (i & c & Hi & Hc).
  unfold entry in He. rewrite Ez, Hi, Hc in He. discriminate.
Qed.

(** The loop over the entries, up to the first entry that does not read:
    the entries before it are written to the new record. *)
Lemma entry_loop_stops (tid k : Z) (old : list TransactionData)
    (e : string) (post : list string) :
  Forall (fun u => _id u <> tid) old ->
  entry e = None ->
  forall (pre : list string) (parsed : list (Currency * Z))
         (t : TransactionData),
    _id t = tid ->
    map entry pre = map Some parsed ->
    for_each (pre ++ e :: post) (fun coinstring =>
      amount <- lift_opt ValueError (int (drop_last coinstring)) ;;
      currency <- ret (last coinstring) ;;
      when (negb (in_tuple currency CURRENCIES_SHORT))
        (send_return (Text ("Invalid currency detected:" ++ currency))) ;;
      i <- lift_opt ValueError (index currency CURRENCIES_SHORT) ;;
      currency <- lift_opt ValueError (nth_error CURRENCIES i) ;;
      set tid currency (VInt amount)) (mkStore (old ++ [t]) k)
    = (mkStore (old ++ [write_entries parsed t]) k, inr (stops_with e)).
Proof.
  intros Hold He. induction pre as [|x pre IH]; intros parsed t Ht Hp.
  - destruct parsed; [|discriminate].
    cbn [app for_each]. unfold bind at 1.
    now rewrite (entry_step_stops tid e _ He).
  - destruct parsed as [|[c z] parsed]; [discriminate|].
    cbn [map] in Hp. injection Hp as Hx Hp.
    cbn [app for_each]. unfold bind at 1.
    rewrite (entry_step tid x c z _ Hx).
    rewrite (update_at old [] t k tid _ Hold (Forall_nil _) Ht).
    cbv beta iota.
    apply (IH parsed (setattr t c (VInt z))); [|exact Hp].
    now rewrite setattr_id.
Qed.

(** X18.  When the amount string passes the character loop and its first
    entry that does not read is [e], [process_transaction] has stored the
    primary record by then and leaves it in the table, filled with the
    entries before [e] only; no second record is made.  It raises
    [ValueError] when what comes before the last character of [e] is not
    an integer, and otherwise reports the last character of [e] as an
    invalid currency. *)
Theorem transaction_stops_half_way
    (ctx : Context) (date1 date2 s d : string) (sender receiver : Z)
    (confirm : bool) (st : Store)
    (pre post : list string) (e : string) (parsed : list (Currency * Z))
    (Hwf : wf st) (Hd : d <> "") (Hs : s <> "")
    (Hchars : find (fun c => negb (valid_char c)) (chars s) = None)
    (Hsplit : split "," s = (pre ++ e :: post)%list)
    (Hpre : map entry pre = map Some parsed)
    (He : entry e = None) :
  process_transaction ctx date1 date2 (Some s) (Some d) sender receiver
    confirm st
  = (mkStore (rows st
              ++ [primary ctx date1 d sender receiver confirm parsed
                    (next_id st)])
             (next_id st + 1),
     stops_with e).
Proof.
  unfold process_transaction, run.
  rewrite (falsy_some d Hd), (falsy_some s Hs).
  cbn [orb when str]. unfold bind at 1. unfold ret at 1.
  unfold bind at 1. rewrite char_loop, Hchars.
  unfold bind at 1.
  unfold create_new at 1, TransactionDB.create_new. cbn [rows next_id].
  unfold bind at 1. rewrite Hsplit.
  rewrite (entry_loop_stops (next_id st) (next_id st + 1) (rows st) e post
             (wf_fresh st Hwf) He pre parsed
             (mkTransaction (next_id st) date1 (author_id ctx) receiver sender
                d confirm VNone VNone VNone VNone VNone)
             eq_refl Hpre).
  reflexivity.
Qed.

Lemma transaction_stops_half_way_witness :
  process_transaction dora "d1" "d2" (Some "2g,25,3s") (Some "Donation") 0 42
    true empty_store
  = (mkStore (rows empty_store
              ++ [primary dora "d1" "Donation" 0 42 true [(Gold, 2)]
                    (next_id empty_store)])
             (next_id empty_store + 1),
     stops_with "25").
Proof.
  apply (transaction_stops_half_way dora "d1" "d2" "2g,25,3s" "Donation" 0 42
           true empty_store ["2g"] ["3s"] "25" [(Gold, 2)] wf_empty);
    try reflexivity; discriminate.
Defined.

(** * Properties of the management cog *)

Import Management.

(** ** The error log *)

Lemma removed_length {A} (l : list A) (i : nat) :
  (i < List.length l)%nat ->
  List.length (firstn i l ++ skipn (S i) l) = (List.length l - 1)%nat.
Proof.
  intros H. rewrite length_app, length_firstn, length_skipn. lia.
Qed.

(** X14.  [error_clear] with an index [n] deletes one stored error exactly
    when [-len <= n < len], [len] being the number of stored errors: the
    error at position [n mod len] goes, the others keep their order, and
    the presence goes back to the default activity, also when errors are
    left in the log.  For any other index it raises [IndexError]: nothing
    is sent, and the log and the presence stay as they were. *)
Theorem error_clear_index (client : Client) (n : Z) :
  let log := last_errors client in
  let len := Z.of_nat (List.length log) in
  if (- len <=? n) && (n <? len)
  then
    let i := Z.to_nat (n mod len) in
    error_clear (Some n) client
    = (mkClient (firstn i log ++ skipn (S i) log) default_activity
         (extensions client),
       ["Deleted error #" ++ repr n], None)
    /\ List.length (firstn i log ++ skipn (S i) log)
       = (List.length log - 1)%nat
  else error_clear (Some n) client = (client, [], Some IndexError).
Proof.
  cbv zeta. unfold error_clear, pop.
  set (len := Z.of_nat (List.length (last_errors client))).
  destruct ((- len <=? n) && (n <? len)) eqn:E.
  - apply andb_true_iff in E as [Hlo Hhi].
    apply Z.leb_le in Hlo. apply Z.ltb_lt in Hhi.
    assert (Hi : (if n <? 0 then n + len else n) = n mod len).
    { destruct (n <? 0) eqn:En.
      - apply Z.ltb_lt in En.
        rewrite <- (Z_mod_plus_full n 1 len), Z.mul_1_l.
        symmetry. apply Z.mod_small. lia.
      - apply Z.ltb_ge in En. symmetry. apply Z.mod_small. lia. }
    rewrite Hi.
    assert (Hr : 0 <= n mod len < len) by (apply Z.mod_pos_bound; lia).
    replace ((n mod len <? 0) || (len <=? n mod len)) with false.
    + split; [reflexivity|]. apply removed_length. unfold len in *. lia.
    + symmetry. apply orb_false_iff. split.
      * apply Z.ltb_ge. lia.
      * apply Z.leb_gt. lia.
  - assert (Hlen : 0 <= len) by apply Nat2Z.is_nonneg.
    assert (Hout : n < - len \/ len <= n).
    { apply andb_false_iff in E. destruct E as [E|E].
      - apply Z.leb_gt in E. now left.
      - apply Z.ltb_ge in E. now right. }
    destruct (Z.ltb_spec n 0) as [Hn|Hn].
    + destruct (Z.ltb_spec (n + len) 0); [reflexivity|].
      destruct (Z.leb_spec len (n + len)); [reflexivity|]. lia.
    + destruct (Z.ltb_spec n 0); [lia|].
      destruct (Z.leb_spec len n); [reflexivity|]. lia.
Qed.

Lemma counted_snoc (l : list string) (x : string) :
  counted (l ++ [x]) = (counted l + String.length x)%nat.
Proof.
  unfold counted. induction l as [|y l IH]; cbn; [lia|].
  rewrite IH. lia.
Qed.

(** The loop over the lines of the traceback cuts them into groups, in
    order and without loss, sends one message for each group, and cuts a
    group as soon as the count passes 1900. *)
Lemma send_lines_framed (lines : list string) :
  forall (response : list string) (num_chars : nat),
  exists (g : list string) (gs : list (list string)),
    List.concat (g :: gs) = lines
    /\ send_lines lines response num_chars
       = map (join nl) (framed response (g :: gs))
    /\ within num_chars g
    /\ Forall (within 0) gs.
Proof.
  induction lines as [|line rest IH]; intros response num_chars.
  - exists [], [].
    split; [reflexivity|]. split; [reflexivity|].
    split; [left; cbn; lia|constructor].
  - cbn [send_lines].
    destruct (1900 <? num_chars + String.length line)%nat eqn:E.
    + destruct (IH [("```python" ++ nl)%string] 0%nat)
        as (g & gs & Hcat & Hsend & Hg & Hgs).
      exists [line], (g :: gs).
      split; [|split; [|split]].
      * cbn [List.concat app] in *. now rewrite Hcat.
      * rewrite Hsend. cbn [framed map]. now rewrite <- app_assoc.
      * left. cbn. lia.
      * now constructor.
    + apply Nat.ltb_ge in E.
      destruct (IH (response ++ [line])%list
                  (num_chars + String.length line)%nat)
        as (g & gs & Hcat & Hsend & Hg & Hgs).
      exists (line :: g), gs.
      split; [|split; [|split]].
      * cbn [List.concat app] in *. now rewrite Hcat.
      * rewrite Hsend. cbn [framed map]. now rewrite <- app_assoc.
      * destruct g as [|x g]; [left; cbn; lia|]. right.
        change (removelast (line :: x :: g))
          with (line :: removelast (x :: g)).
        unfold within, counted in *. cbn [map fold_right].
        destruct Hg as [Hg|Hg].
        -- destruct g; [cbn in *; lia|cbn in Hg; lia].
        -- lia.
      * exact Hgs.
Qed.

(** X15.  For an index of the log, [error_traceback] sends the traceback
    whole: cut at its line ends into groups, every line in exactly one
    group and in order, the first group after the header lines and each
    other group in a code block of its own.  A group is closed as soon as
    the characters counted pass 1900, so what a message holds before its
    last line counts at most 1900 characters. *)
Theorem traceback_is_sent_whole (delta_str : string) (n : Z)
    (client : Client) (e : StoredError)
    (Hn : 0 <= n)
    (He : nth_error (last_errors client) (Z.to_nat n) = Some e) :
  exists (g : list string) (gs : list (list string)),
    List.concat (g :: gs) = split "010" (traceback e)
    /\ error_traceback delta_str (Some n) client
       = map (join nl) (framed (traceback_header delta_str e) (g :: gs))
    /\ within (counted (traceback_header delta_str e)) g
    /\ Forall (within 0) gs.
Proof.
  unfold error_traceback.
  assert (Hlen : (Z.to_nat n < List.length (last_errors client))%nat).
  { apply nth_error_Some. now rewrite He. }
  destruct (last_errors client) as [|e0 log] eqn:Hlog; [cbn in Hlen; lia|].
  replace ((Z.of_nat (List.length (e0 :: log)) <=? n) || (n <? 0))
    with false.
  - rewrite He. apply send_lines_framed.
  - symmetry. apply orb_false_iff. split.
    + apply Z.leb_gt. lia.
    + apply Z.ltb_ge. lia.
Qed.

Lemma traceback_is_sent_whole_witness :
  let e := mkStoredError "boom" ("Traceback" ++ nl ++ "ValueError: boom")
             "2020-05-01T10:00:00.123456" None in
  exists (g : list string) (gs : list (list string)),
    List.concat (g :: gs) = split "010" (traceback e)
    /\ error_traceback "0 hours and 5 seconds ago" (Some 0)
         (mkClient [e] runtime_error_activity [])
       = map (join nl)
           (framed (traceback_header "0 hours and 5 seconds ago" e) (g :: gs))
    /\ within (counted (traceback_header "0 hours and 5 seconds ago" e)) g
    /\ Forall (within 0) gs.
Proof.
  apply (traceback_is_sent_whole "0 hours and 5 seconds ago" 0
           (mkClient
              [mkStoredError "boom" ("Traceback" ++ nl ++ "ValueError: boom")
                 "2020-05-01T10:00:00.123456" None]
              runtime_error_activity [])).
  - lia.
  - reflexivity.
Defined.

(** ** Extensions *)

Lemma is_in_refl (s : string) : is_in s s = true.
Proof.
  assert (H : startswith s s = true).
  { induction s as [|c s IH]; [reflexivity|].
    cbn. now rewrite Ascii.eqb_refl. }
  destruct s; cbn in *; [reflexivity|]. now rewrite H.
Qed.

Lemma unload_frame (extension_name : string) (client : Client) :
  let after := fst (fst (unload_extension extension_name client)) in
  (forall x, In x (extensions after) -> In x (extensions client))
  /\ (forall x, In x (extensions client) ->
                is_in (lower x) "cogs.management" = true ->
                In x (extensions after))
  /\ (forall x, In x (extensions client) ->
                is_in extension_name x = false ->
                In x (extensions after))
  /\ (In "cogs.management" (extensions client) ->
      In "cogs.management" (extensions after))
  /\ last_errors after = last_errors client
  /\ presence after = presence client.
Proof.
  cbv zeta. unfold unload_extension.
  destruct (find _ (extensions client)) as [target|] eqn:Hfind;
    [|cbn [fst]; repeat split; auto].
  apply find_some in Hfind as [Hin Hmatch].
  destruct (is_in (lower target) "cogs.management") eqn:Hguard;
    [cbn [fst]; repeat split; auto|].
  destruct (negb (existsb _ _)); [cbn [fst]; repeat split; auto|].
  cbn [fst extensions last_errors presence].
  assert (Hkeep : forall x, In x (extensions client) -> x <> target ->
                            In x (filter (fun y => negb (String.eqb y target))
                                         (extensions client))).
  { intros x Hx Hne. apply filter_In. split; [exact Hx|].
    apply negb_true_iff, String.eqb_neq. exact Hne. }
  repeat split.
  - intros x Hx. now apply filter_In in Hx.
  - intros x Hx Hlow. apply Hkeep; [exact Hx|]. intros ->. congruence.
  - intros x Hx Hno. apply Hkeep; [exact Hx|]. intros ->. congruence.
  - intros Hx. apply Hkeep; [exact Hx|]. intros <-.
    cbn in Hguard. discriminate.
Qed.

Lemma find_first {A} (p : A -> bool) (pre post : list A) (x : A) :
  (forall y, In y pre -> p y = false) -> p x = true ->
  find p (pre ++ x :: post) = Some x.
Proof.
  intros Hpre Hx. induction pre as [|y pre IH]; cbn [app find].
  - now rewrite Hx.
  - rewrite (Hpre y (or_introl eq_refl)). apply IH.
    intros z Hz. apply Hpre. now right.
Qed.

Lemma filter_other_names (x : string) (l : list string) :
  ~ In x l -> filter (fun y => negb (String.eqb y x)) l = l.
Proof.
  induction l as [|y l IH]; intros Hx; [reflexivity|]. cbn [filter].
  destruct (String.eqb_spec y x) as [->|_].
  - exfalso. apply Hx. now left.
  - cbn [negb]. rewrite IH; [reflexivity|]. intros H. apply Hx. now right.
Qed.

Lemma filter_unique_name (x : string) (pre post : list string) :
  NoDup (pre ++ x :: post) ->
  filter (fun y => negb (String.eqb y x)) (pre ++ x :: post)
  = (pre ++ post)%list.
Proof.
  intros H. apply NoDup_remove_2 in H.
  rewrite filter_app. cbn [filter]. rewrite String.eqb_refl. cbn [negb].
  rewrite !filter_other_names; [reflexivity|..];
    intros Hin; apply H, in_or_app; auto.
Qed.

(** X16.  The names of the loaded extensions being distinct,
    [unload_extension] takes away exactly one extension or none.  When no
    loaded extension holds [extension_name] in its name, the command
    raises [UnboundLocalError], sends nothing and changes nothing.
    Otherwise it looks at the first loaded extension [x] whose name holds
    [extension_name] and at no other: if the lower-case name of [x] occurs
    in [cogs.management], nothing is unloaded, else [x] alone is taken
    away and the other extensions stay, in their order.  So an extension
    whose lower-case name occurs in [cogs.management] is never taken
    away, the management cog stays loaded whatever the argument, and the
    error log and the presence are not touched. *)
Theorem unload_keeps_management (extension_name : string) (client : Client)
    (Hkeys : NoDup (extensions client)) :
  let r := unload_extension extension_name client in
  let after := fst (fst r) in
  ((forall y, In y (extensions client) -> is_in extension_name y = false) ->
   r = (client, [], Some UnboundLocalError))
  /\ (forall pre x post,
        extensions client = (pre ++ x :: post)%list ->
        (forall y, In y pre -> is_in extension_name y = false) ->
        is_in extension_name x = true ->
        snd r = None
        /\ extensions after
           = if is_in (lower x) "cogs.management"
             then extensions client else (pre ++ post)%list)
  /\ (forall x, In x (extensions client) ->
                is_in (lower x) "cogs.management" = true ->
                In x (extensions after))
  /\ (In "cogs.management" (extensions client) ->
      In "cogs.management" (extensions after))
  /\ last_errors after = last_errors client
  /\ presence after = presence client.
Proof.
  cbv zeta.
  destruct (unload_frame extension_name client)
    as (_ & Hguard & _ & Hmanagement & Herrors & Hpresence).
  split; [|split; [|repeat split; assumption]].
  - intros Hnone. unfold unload_extension.
    destruct (find _ (extensions client)) as [target|] eqn:Hfind;
      [|reflexivity].
    apply find_some in Hfind as [Hin Hmatch].
    rewrite (Hnone target Hin) in Hmatch. discriminate.
  - intros pre x post Hsplit Hpre Hx.
    clear Hguard Hmanagement Herrors Hpresence.
    destruct client as [errors activity names].
    cbn [extensions] in Hsplit, Hkeys. subst names.
    unfold unload_extension. cbn [extensions last_errors presence].
    rewrite (find_first (fun cog_name => is_in extension_name cog_name)
               pre post x Hpre Hx).
    destruct (is_in (lower x) "cogs.management");
      [split; reflexivity|].
    assert (Hloaded : existsb (String.eqb x) (pre ++ x :: post) = true).
    { apply existsb_exists. exists x. split; [|apply String.eqb_refl].
      apply in_or_app. right. now left. }
    rewrite Hloaded. cbn [negb fst snd extensions].
    split; [reflexivity|]. now apply filter_unique_name.
Qed.

Lemma unload_keeps_management_witness :
  let client := mkClient [] default_activity
                  ["cogs.bank"; "cogs.management"; "cogs.stats"] in
  let r := unload_extension "cogs" client in
  let after := fst (fst r) in
  extensions after = ["cogs.management"; "cogs.stats"]
  /\ ((forall y, In y (extensions client) -> is_in "cogs" y = false) ->
      r = (client, [], Some UnboundLocalError))
  /\ (forall pre x post,
        extensions client = (pre ++ x :: post)%list ->
        (forall y, In y pre -> is_in "cogs" y = false) ->
        is_in "cogs" x = true ->
        snd r = None
        /\ extensions after
           = if is_in (lower x) "cogs.management"
             then extensions client else (pre ++ post)%list)
  /\ (forall x, In x (extensions client) ->
                is_in (lower x) "cogs.management" = true ->
                In x (extensions after))
  /\ (In "cogs.management" (extensions client) ->
      In "cogs.management" (extensions after))
  /\ last_errors after = last_errors client
  /\ presence after = presence client.
Proof.
  split; [reflexivity|].
  apply (unload_keeps_management "cogs"
           (mkClient [] default_activity
              ["cogs.bank"; "cogs.management"; "cogs.stats"])).
  cbn. repeat constructor; cbn; intuition discriminate.
Defined.

(** ** The names of the cogs *)

Lemma replace_app (old new : ascii) (a b : string) :
  replace old new (a ++ b) = replace old new a ++ replace old new b.
Proof.
  induction a as [|c a IH]; [reflexivity|]. cbn. now rewrite IH.
Qed.

Lemma replace_absent (old new : ascii) (s : string) :
  contains old s = false -> replace old new s = s.
Proof.
  induction s as [|c s IH]; [reflexivity|]. cbn [contains replace].
  intros H. apply orb_false_iff in H as [Hc Hs].
  rewrite Ascii.eqb_sym, Hc, (IH Hs). reflexivity.
Qed.

Lemma plain_inv (element : string) :
  plain element = true ->
  element <> "" /\ contains "/" element = false
  /\ contains "\" element = false.
Proof.
  unfold plain. intros H.
  apply andb_true_iff in H as [H H3]. apply andb_true_iff in H as [H1 H2].
  apply negb_true_iff in H1, H2, H3. apply String.eqb_neq in H1. auto.
Qed.

Lemma last_app (a b : string) : b <> "" -> Py.last (a ++ b) = Py.last b.
Proof.
  intros Hb. induction a as [|c a IH]; [reflexivity|].
  cbn [append]. destruct (a ++ b) as [|d r] eqn:E.
  - destruct a; [cbn in E; contradiction|discriminate].
  - exact IH.
Qed.

Lemma last_contained (s : string) :
  s <> "" -> exists c, Py.last s = String c "" /\ contains c s = true.
Proof.
  induction s as [|d s IH]; [contradiction|]. intros _.
  destruct s as [|d' s'].
  - exists d. cbn. now rewrite Ascii.eqb_refl.
  - destruct IH as (c & Hl & Hc); [discriminate|].
    exists c. split; [exact Hl|].
    cbn [contains] in *. rewrite Hc. apply orb_true_r.
Qed.

(** Joining a plain name to a path gives a path that can be extended
    again, and whose dotted form is the dotted path, a dot and the
    name. *)
Lemma path_join_plain (directory element : string) :
  rooted directory = true -> plain element = true ->
  rooted (path_join directory element) = true
  /\ dotted (path_join directory element)
     = dotted directory ++ "." ++ element.
Proof.
  intros Hd He. destruct (plain_inv element He) as (Hne & Hslash & Hback).
  unfold rooted in Hd. apply andb_true_iff in Hd as [Hd1 Hd2].
  apply negb_true_iff in Hd1, Hd2.
  assert (Hjoin : path_join directory element
                  = directory ++ "/" ++ element).
  { unfold path_join. rewrite Hd1, Hd2. cbn [orb].
    destruct element as [|c r]; [contradiction|].
    cbn [startswith]. cbn [contains] in Hslash.
    apply orb_false_iff in Hslash as [Hc _]. now rewrite Hc. }
  rewrite Hjoin. split.
  - unfold rooted. apply andb_true_iff. split; apply negb_true_iff.
    + apply String.eqb_neq. destruct directory; discriminate.
    + rewrite last_app by discriminate.
      change ("/" ++ element) with (String "/" element).
      destruct element as [|c r]; [contradiction|].
      change (Py.last (String "/" (String c r))) with (Py.last (String c r)).
      destruct (last_contained (String c r)) as (x & -> & Hx);
        [discriminate|].
      apply String.eqb_neq. intros [= ->]. congruence.
  - unfold dotted. rewrite !replace_app.
    rewrite (replace_absent "\" "." element Hback).
    rewrite (replace_absent "/" "." element Hslash). reflexivity.
Qed.

(** One turn of the loop lists the module names below the dotted path. *)
Lemma crawl_element_modules (e : Element) :
  plain_element e = true ->
  forall directory, rooted directory = true ->
    crawl_element directory e = modules_element (dotted directory) e.
Proof.
  induction e as [element|element content IH] using Element_tree_ind;
    intros Hplain directory Hdir.
  - reflexivity.
  - cbn [crawl_element modules_element element_name].
    destruct (in_tuple element ["samples"; "utils"]); [reflexivity|].
    cbn [plain_element element_name] in Hplain.
    apply andb_true_iff in Hplain as [Hname Hcontent].
    destruct (path_join_plain directory element Hdir Hname) as [Hr Hdot].
    rewrite <- Hdot.
    induction IH as [|x r Hx _ IHr]; [reflexivity|].
    apply andb_true_iff in Hcontent as [Hpx Hpr].
    rewrite (Hx Hpx _ Hr), (IHr Hpr). reflexivity.
Qed.

Lemma append_assoc (a b c : string) : (a ++ b) ++ c = a ++ b ++ c.
Proof. induction a as [|x a IH]; [reflexivity|]. cbn. now rewrite IH. Qed.

Lemma startswith_app (p s : string) : startswith (p ++ s) p = true.
Proof.
  induction p as [|c p IH]; [now destruct s|].
  cbn. now rewrite Ascii.eqb_refl.
Qed.

Lemma startswith_shorter (m p q : string) :
  startswith m (p ++ q) = true -> startswith m p = true.
Proof.
  revert m. induction p as [|c p IH]; intros m H; [now destruct m|].
  destruct m as [|d m]; [discriminate|]. cbn in *.
  apply andb_true_iff in H as [-> H]. now apply IH.
Qed.

Lemma modules_element_prefix (e : Element) :
  forall prefix,
    Forall (fun m => startswith m (prefix ++ ".") = true)
           (modules_element prefix e).
Proof.
  induction e as [element|element content IH] using Element_tree_ind;
    intros prefix.
  - cbn [modules_element element_name].
    destruct (in_tuple element ["samples"; "utils"]); [constructor|].
    destruct (splitext element) as [filename ext].
    destruct (String.eqb ext ".py"); constructor; [|constructor].
    rewrite <- append_assoc. apply startswith_app.
  - cbn [modules_element element_name].
    destruct (in_tuple element ["samples"; "utils"]); [constructor|].
    induction IH as [|x r Hx _ IHr]; [constructor|].
    apply Forall_app. split; [|exact IHr].
    eapply Forall_impl; [|exact (Hx (prefix ++ "." ++ element))].
    cbn. intros m Hm.
    apply (startswith_shorter m (prefix ++ ".") (element ++ ".")).
    rewrite append_assoc in Hm. rewrite append_assoc. exact Hm.
Qed.

(** X17.  On a listing of plain names, [crawl_cogs] returns the module
    names: for every file with the extension [.py] that is not below, or
    itself named, [samples] or [utils], the dotted path of its directory,
    a dot, and the name without the extension, in the order of the
    listing.  Every name it returns starts with the dotted path of the
    directory it was given and a dot. *)
Theorem crawl_cogs_lists_modules (directory : string)
    (listing : list Element)
    (Hdir : rooted directory = true)
    (Hplain : forallb plain_element listing = true) :
  crawl_cogs directory listing = modules (dotted directory) listing
  /\ Forall (fun m => startswith m (dotted directory ++ ".") = true)
            (crawl_cogs directory listing).
Proof.
  assert (H : crawl_cogs directory listing
              = modules (dotted directory) listing).
  { induction listing as [|e r IH]; [reflexivity|].
    cbn [forallb] in Hplain. apply andb_true_iff in Hplain as [He Hr].
    cbn [crawl_cogs modules].
    now rewrite (crawl_element_modules e He directory Hdir), (IH Hr). }
  split; [exact H|]. rewrite H. clear H Hplain.
  induction listing as [|e r IH]; [constructor|].
  cbn [modules]. apply Forall_app. split; [|exact IH].
  apply modules_element_prefix.
Qed.

Lemma crawl_cogs_lists_modules_witness :
  let listing :=
    [File "bank.py"; File "notes.txt";
     Directory "utils" [File "checks.py"];
     Directory "extra" [File "dice.py"]] in
  crawl_cogs "cogs" listing = modules (dotted "cogs") listing
  /\ Forall (fun m => startswith m (dotted "cogs" ++ ".") = true)
            (crawl_cogs "cogs" listing).
Proof.
  apply (crawl_cogs_lists_modules "cogs"
           [File "bank.py"; File "notes.txt";
            Directory "utils" [File "checks.py"];
            Directory "extra" [File "dice.py"]]);
    reflexivity.
Defined.
